(** * loop4r_leds: the LED bridge of Source/Main.cpp

    A shallow embedding of the stateful core of [loop4r_ledsApplication]
    (the OSC message handlers, the 200 ms timer callback and the pedal LED
    writer) together with the properties of its connection-liveness
    countdown, session tracking and blink animation.

    Conventions of the embedding.
    - C++ [int] fields are [Z]; the only arithmetic on them that could
      leave the 32-bit range is written out where it occurs.
    - The application object is the record [App]; every member function
      becomes a function on [App].
    - The two output channels (OSC datagrams handed to [oscSender.send]
      and 3-byte frames handed to [snd_rawmidi_write]) are traces stored
      in [App], oldest first.  Console logging is not part of the state.
    - Code whose behaviour is undefined in C++ (an [Array::getReference]
      outside the array, reading an OSC argument past the end of the
      message, a signed overflow, a [static_cast] to [LedStates] outside
      the enumeration) yields [None]. *)

From Stdlib Require Import ZArith String.
From stdpp Require Import base tactics option list numbers.

Local Open Scope Z_scope.
Local Open Scope string_scope.
Local Open Scope list_scope.

(** ** Data model *)

Inductive LedStates := Dark | Light | Blink | FastBlink.

#[global] Instance LedStates_eq_dec : EqDecision LedStates.
Proof. solve_decision. Defined.

Definition NUM_LED_PEDALS : Z := 10.
Definition UP : Z := 10.
Definition DOWN : Z := 11.

Definition TIMER_OFF : Z := 0.
Definition TIMER_FASTBLINK : Z := 1.
Definition TIMER_BLINK : Z := 3.

Record LED := mkLED {
  index_ : Z;
  on_ : bool;
  timer_ : Z;
  state_ : LedStates
}.

(** The aggregate [{i, false, TIMER_OFF, Dark}] used wherever a slot is
    created. *)
Definition freshLed (i : Z) : LED := mkLED i false TIMER_OFF Dark.

Definition withOn (b : bool) (l : LED) : LED :=
  mkLED (index_ l) b (timer_ l) (state_ l).
Definition withTimer (t : Z) (l : LED) : LED :=
  mkLED (index_ l) (on_ l) t (state_ l).
Definition withState (st : LedStates) (l : LED) : LED :=
  mkLED (index_ l) (on_ l) (timer_ l) st.

(** [static_cast<LedStates>(int)]. *)
Definition LedStates_of_int (v : Z) : option LedStates :=
  match v with
  | 0 => Some Dark
  | 1 => Some Light
  | 2 => Some Blink
  | 3 => Some FastBlink
  | _ => None
  end.

(** Conversions to [uint8] / [unsigned char]. *)
Definition uint8 (v : Z) : Z := v mod 256.

Definition INT_MAX : Z := 2147483647.

(** ** Pedal wiring *)

Definition pedalIndex (controllerValue : Z) : Z :=
  match controllerValue with
  | 1 | 2 | 3 | 4 | 5 | 6 | 7 | 8 | 9 => controllerValue - 1
  | 0 => 9
  | 10 => UP
  | 11 => DOWN
  | _ => controllerValue
  end.

Definition ledNumber (pedalIdx : Z) : Z :=
  match pedalIdx with
  | 0 | 1 | 2 | 3 | 4 | 5 | 6 | 7 | 8 => uint8 (pedalIdx + 1)
  | 9 => 0
  | _ => uint8 pedalIdx
  end.

(** ** OSC messages *)

Inductive OSCArgument :=
  | Int32 (v : Z)
  | Float32 (bits : Z)
  | OscString (s : string)
  | Blob (data : list Z).

Definition isInt32 (a : OSCArgument) : bool :=
  match a with Int32 _ => true | _ => false end.
Definition isString (a : OSCArgument) : bool :=
  match a with OscString _ => true | _ => false end.

Record OSCMessage := mkMsg {
  addressPattern : string;
  arguments : list OSCArgument
}.

(** A 3-byte control-change frame [{MIDI_CMD_CONTROL, cc, value}];
    [MIDI_CMD_CONTROL] is ALSA's constant 0xB0. *)
Definition MIDI_CMD_CONTROL : Z := 176.
Definition Frame : Type := Z * Z * Z.
Definition ccFrame (cc value : Z) : Frame := (MIDI_CMD_CONTROL, cc, value).

(** An outgoing OSC datagram: address and arguments of one
    [oscSender.send] call. *)
Definition OscOut : Type := string * list OSCArgument.

(** ** Application state

    The data members of [loop4r_ledsApplication] used by the timer and the
    message handlers.  [midiOut_] records whether the raw-MIDI handle is
    non-null.  [oscSent] and [midiWritten] are the output traces. *)
Record App := mkApp {
  currentReceivePort_ : Z;
  currentSendPort_ : Z;
  oscSendPort_ : Z;
  oscReceivePort_ : Z;
  engineId_ : Z;
  leds_ : list LED;
  midiOutName_ : string;
  midiOut_ : bool;
  ledCount_ : Z;
  pinged_ : bool;
  hostUrl_ : string;
  version_ : string;
  heartbeat_ : Z;
  heartbeatOn_ : bool;
  oscSent : list OscOut;
  midiWritten : list Frame
}.

Definition set_currentReceivePort (v : Z) (s : App) : App :=
  mkApp v (currentSendPort_ s) (oscSendPort_ s) (oscReceivePort_ s)
    (engineId_ s) (leds_ s) (midiOutName_ s) (midiOut_ s) (ledCount_ s)
    (pinged_ s) (hostUrl_ s) (version_ s) (heartbeat_ s) (heartbeatOn_ s)
    (oscSent s) (midiWritten s).
Definition set_currentSendPort (v : Z) (s : App) : App :=
  mkApp (currentReceivePort_ s) v (oscSendPort_ s) (oscReceivePort_ s)
    (engineId_ s) (leds_ s) (midiOutName_ s) (midiOut_ s) (ledCount_ s)
    (pinged_ s) (hostUrl_ s) (version_ s) (heartbeat_ s) (heartbeatOn_ s)
    (oscSent s) (midiWritten s).
Definition set_engineId (v : Z) (s : App) : App :=
  mkApp (currentReceivePort_ s) (currentSendPort_ s) (oscSendPort_ s)
    (oscReceivePort_ s) v (leds_ s) (midiOutName_ s) (midiOut_ s)
    (ledCount_ s) (pinged_ s) (hostUrl_ s) (version_ s) (heartbeat_ s)
    (heartbeatOn_ s) (oscSent s) (midiWritten s).
Definition set_leds (v : list LED) (s : App) : App :=
  mkApp (currentReceivePort_ s) (currentSendPort_ s) (oscSendPort_ s)
    (oscReceivePort_ s) (engineId_ s) v (midiOutName_ s) (midiOut_ s)
    (ledCount_ s) (pinged_ s) (hostUrl_ s) (version_ s) (heartbeat_ s)
    (heartbeatOn_ s) (oscSent s) (midiWritten s).
Definition set_midiOut (v : bool) (s : App) : App :=
  mkApp (currentReceivePort_ s) (currentSendPort_ s) (oscSendPort_ s)
    (oscReceivePort_ s) (engineId_ s) (leds_ s) (midiOutName_ s) v
    (ledCount_ s) (pinged_ s) (hostUrl_ s) (version_ s) (heartbeat_ s)
    (heartbeatOn_ s) (oscSent s) (midiWritten s).
Definition set_ledCount (v : Z) (s : App) : App :=
  mkApp (currentReceivePort_ s) (currentSendPort_ s) (oscSendPort_ s)
    (oscReceivePort_ s) (engineId_ s) (leds_ s) (midiOutName_ s)
    (midiOut_ s) v (pinged_ s) (hostUrl_ s) (version_ s) (heartbeat_ s)
    (heartbeatOn_ s) (oscSent s) (midiWritten s).
Definition set_hostUrl (v : string) (s : App) : App :=
  mkApp (currentReceivePort_ s) (currentSendPort_ s) (oscSendPort_ s)
    (oscReceivePort_ s) (engineId_ s) (leds_ s) (midiOutName_ s)
    (midiOut_ s) (ledCount_ s) (pinged_ s) v (version_ s) (heartbeat_ s)
    (heartbeatOn_ s) (oscSent s) (midiWritten s).
Definition set_version (v : string) (s : App) : App :=
  mkApp (currentReceivePort_ s) (currentSendPort_ s) (oscSendPort_ s)
    (oscReceivePort_ s) (engineId_ s) (leds_ s) (midiOutName_ s)
    (midiOut_ s) (ledCount_ s) (pinged_ s) (hostUrl_ s) v (heartbeat_ s)
    (heartbeatOn_ s) (oscSent s) (midiWritten s).
Definition set_heartbeat (v : Z) (s : App) : App :=
  mkApp (currentReceivePort_ s) (currentSendPort_ s) (oscSendPort_ s)
    (oscReceivePort_ s) (engineId_ s) (leds_ s) (midiOutName_ s)
    (midiOut_ s) (ledCount_ s) (pinged_ s) (hostUrl_ s) (version_ s) v
    (heartbeatOn_ s) (oscSent s) (midiWritten s).
Definition set_heartbeatOn (v : bool) (s : App) : App :=
  mkApp (currentReceivePort_ s) (currentSendPort_ s) (oscSendPort_ s)
    (oscReceivePort_ s) (engineId_ s) (leds_ s) (midiOutName_ s)
    (midiOut_ s) (ledCount_ s) (pinged_ s) (hostUrl_ s) (version_ s)
    (heartbeat_ s) v (oscSent s) (midiWritten s).

(** [oscSender.send (address, args...)]: the datagram joins the trace. *)
Definition oscSend (address : string) (args : list OSCArgument) (s : App) : App :=
  mkApp (currentReceivePort_ s) (currentSendPort_ s) (oscSendPort_ s)
    (oscReceivePort_ s) (engineId_ s) (leds_ s) (midiOutName_ s)
    (midiOut_ s) (ledCount_ s) (pinged_ s) (hostUrl_ s) (version_ s)
    (heartbeat_ s) (heartbeatOn_ s) (oscSent s ++ [(address, args)])
    (midiWritten s).

(** [snd_rawmidi_write (midiOut_, frames...)]: the frames join the trace.
    The byte count returned by ALSA is only compared with 3 in order to
    log a short write, so it does not influence the state.  The call is
    recorded whether or not the handle is open: what ALSA does with a
    null handle is outside this program. *)
Definition midiWrite (fs : list Frame) (s : App) : App :=
  mkApp (currentReceivePort_ s) (currentSendPort_ s) (oscSendPort_ s)
    (oscReceivePort_ s) (engineId_ s) (leds_ s) (midiOutName_ s)
    (midiOut_ s) (ledCount_ s) (pinged_ s) (hostUrl_ s) (version_ s)
    (heartbeat_ s) (heartbeatOn_ s) (oscSent s) (midiWritten s ++ fs).

(** The state built by the constructor and the in-class initialisers.
    [engineId_], [ledCount_], [pinged_] and [heartbeat_] have no
    initialiser in the source, so their first values are arguments. *)
Definition constructed (engineId ledCount heartbeat : Z) (pinged : bool) : App :=
  mkApp (-1) (-1) 9000 9001 engineId
    (freshLed <$> [0; 1; 2; 3; 4; 5; 6; 7; 8; 9]) "" false ledCount pinged
    "" "" heartbeat false [] [].

(** What the operating system answers during one call: whether
    [snd_rawmidi_open], [oscSender.connect] and [oscReceiver.connect]
    succeed. *)
Record Env := mkEnv {
  midiOpens : bool;
  senderConnects : bool;
  receiverConnects : bool
}.

(** ** Control-surface writer *)

(** [leds_.getReference (index)]: defined only inside the array. *)
Definition getReference (l : list LED) (index : Z) : option LED :=
  if bool_decide (0 ≤ index) then l !! Z.to_nat index else None.

Definition ledOn (pedalIdx : Z) (s : App) : option App :=
  _ ← getReference (leds_ s) pedalIdx;
  Some (midiWrite [ccFrame 106 (ledNumber pedalIdx)]
          (set_leds (alter (withOn true) (Z.to_nat pedalIdx) (leds_ s)) s)).

Definition ledOff (pedalIdx : Z) (s : App) : option App :=
  _ ← getReference (leds_ s) pedalIdx;
  Some (midiWrite [ccFrame 107 (ledNumber pedalIdx)]
          (set_leds (alter (withOn false) (Z.to_nat pedalIdx) (leds_ s)) s)).

Definition ledFrame (led : LED) : Frame :=
  ccFrame (if on_ led then 106 else 107) (ledNumber (index_ led)).

Definition updateLedState (led : LED) (s : App) : App :=
  midiWrite [ledFrame led] s.

Definition updateLeds (s : App) : App :=
  midiWrite (ledFrame <$> leds_ s) s.

(** ** Resync requests *)

Definition localhost : OSCArgument := OscString "127.0.0.1".

Definition getCurrentState (index : Z) (s : App) : App :=
  let s1 := oscSend "/loop4r/leds"
              [localhost; Int32 (currentReceivePort_ s); OscString "/led"] s in
  oscSend "/loop4r/display"
    [localhost; Int32 (currentReceivePort_ s1); OscString "/display"] s1.

Definition registerAutoUpdates (unreg : bool) (s : App) : App :=
  if unreg
  then oscSend "/loop4r/unregister_auto_update"
         [localhost; Int32 (currentReceivePort_ s)] s
  else oscSend "/loop4r/register_auto_update"
         [localhost; Int32 (currentReceivePort_ s)] s.

(** ** Session tracker *)

(** The loop shared by the two places that rebuild the registry:
    [for (i = 0; i < ledCount_; i++) { leds_.add (...);
    registerAutoUpdates (false); getCurrentState (i); updateLeds (); }].
    [n] counts the iterations still to run. *)
Fixpoint rebuildLoop (n : nat) (i : Z) (s : App) : App :=
  match n with
  | O => s
  | S n' =>
      let s1 := set_leds (leds_ s ++ [freshLed i]) s in
      let s2 := registerAutoUpdates false s1 in
      let s3 := getCurrentState i s2 in
      rebuildLoop n' (i + 1) (updateLeds s3)
  end.

Definition rebuildLeds (s : App) : App :=
  rebuildLoop (Z.to_nat (ledCount_ s)) 0 (set_leds [] s).

(** The argument loop of [handlePingAckMessage]; the boolean is [false]
    when the loop left the handler through the [default: ... return]. *)
Fixpoint pingAckArgs (i : nat) (args : list OSCArgument) (s : App) : App * bool :=
  match args with
  | [] => (s, true)
  | arg :: rest =>
      match i with
      | 0%nat => pingAckArgs (S i) rest
               (match arg with OscString v => set_hostUrl v s | _ => s end)
      | 1%nat => pingAckArgs (S i) rest
               (match arg with OscString v => set_version v s | _ => s end)
      | 2%nat => pingAckArgs (S i) rest
               (match arg with Int32 v => set_ledCount v s | _ => s end)
      | 3%nat => pingAckArgs (S i) rest
               (match arg with Int32 v => set_engineId v s | _ => s end)
      | _ => (s, false)
      end
  end.

Definition handlePingAckMessage (message : OSCMessage) (s : App) : App :=
  match arguments message with
  | [] => s
  | args =>
      match pingAckArgs 0%nat args s with
      | (s1, false) => s1
      | (s1, true) =>
          let s2 := if decide (0 < ledCount_ s1) then rebuildLeds s1 else s1 in
          set_heartbeat 5 s2
      end
  end.

(** The argument loop of [handleHeartbeatMessage], threading the locals
    [numleds] and [uid]; its [default] only logs. *)
Fixpoint heartbeatArgs (i : nat) (args : list OSCArgument)
    (s : App) (numleds uid : Z) : App * Z * Z :=
  match args with
  | [] => (s, numleds, uid)
  | arg :: rest =>
      match i with
      | 0%nat => heartbeatArgs (S i) rest
               (match arg with OscString v => set_hostUrl v s | _ => s end)
               numleds uid
      | 1%nat => heartbeatArgs (S i) rest
               (match arg with OscString v => set_version v s | _ => s end)
               numleds uid
      | 2%nat => heartbeatArgs (S i) rest s
               (match arg with Int32 v => v | _ => numleds end) uid
      | 3%nat => heartbeatArgs (S i) rest s numleds
               (match arg with Int32 v => v | _ => uid end)
      | _ => heartbeatArgs (S i) rest s numleds uid
      end
  end.

(** [for (auto i = ledCount_; i < numleds; i++) { registerAutoUpdates
    (false); leds_.add (...); updateLeds (); }]. *)
Fixpoint appendLoop (n : nat) (i : Z) (s : App) : App :=
  match n with
  | O => s
  | S n' =>
      let s1 := registerAutoUpdates false s in
      let s2 := set_leds (leds_ s1 ++ [freshLed i]) s1 in
      appendLoop n' (i + 1) (updateLeds s2)
  end.

Definition handleHeartbeatMessage (message : OSCMessage) (s : App) : App :=
  match arguments message with
  | [] => s
  | args =>
      let '(s1, numleds, uid) := heartbeatArgs 0%nat args s 0 (engineId_ s) in
      let s2 :=
        if decide (uid ≠ engineId_ s1) then
          if decide (0 < numleds)
          then rebuildLeds (set_ledCount numleds s1)
          else s1
        else
          if decide (ledCount_ s1 ≠ numleds)
          then set_ledCount numleds
                 (appendLoop (Z.to_nat (numleds - ledCount_ s1)) (ledCount_ s1) s1)
          else s1 in
      let s3 := midiWrite [ccFrame (if heartbeatOn_ s2 then 107 else 106) 23] s2 in
      set_heartbeat 5 (set_heartbeatOn (negb (heartbeatOn_ s3)) s3)
  end.

(** [handleLedMessage] walks the arguments with a pointer that is
    dereferenced without a bounds check: the nested matches follow the
    nested [if (arg->isInt32 ())] tests, and a missing argument is a read
    past the end. *)
Definition handleLedMessage (message : OSCMessage) (s : App) : option App :=
  match arguments message with
  | [] => Some s
  | Int32 ledIndex :: rest0 =>
      if decide (ledIndex < 0 ∨ ledCount_ s ≤ ledIndex) then Some s
      else
        led ← getReference (leds_ s) ledIndex;
        let p := Z.to_nat ledIndex in
        match rest0 with
        | [] => None
        | Int32 v1 :: rest1 =>
            let led1 := withOn (negb (bool_decide (v1 = 0))) led in
            let s1 := set_leds (<[p := led1]> (leds_ s)) s in
            match rest1 with
            | [] => None
            | Int32 v2 :: rest2 =>
                let led2 := withTimer v2 led1 in
                let s2 := set_leds (<[p := led2]> (leds_ s1)) s1 in
                match rest2 with
                | [] => None
                | Int32 v3 :: _ =>
                    st ← LedStates_of_int v3;
                    let led3 := withState st led2 in
                    let s3 := set_leds (<[p := led3]> (leds_ s2)) s2 in
                    Some (set_heartbeat 5 (updateLedState led3 s3))
                | _ :: _ => Some s2
                end
            | _ :: _ => Some s1
            end
        | _ :: _ => Some s
        end
  | _ :: _ => Some s
  end.

Definition handleDisplayMessage (message : OSCMessage) (s : App) : option App :=
  match arguments message with
  | [] => Some s
  | Int32 v :: _ =>
      if decide (v = INT_MAX) then None
      else
        let selectedLoop := v + 1 in
        let s1 :=
          if decide (0 < Z.quot selectedLoop 10)
          then midiWrite [ccFrame 113 (uint8 (Z.quot selectedLoop 10))] s
          else midiWrite [ccFrame 113 0] s in
        Some (midiWrite [ccFrame 114 (uint8 (Z.rem selectedLoop 10))] s1)
  | _ :: _ => Some s
  end.

Definition startsWith (address pre : string) : bool := String.prefix pre address.

Definition oscMessageReceived (message : OSCMessage) (s : App) : option App :=
  let address := addressPattern message in
  if startsWith address "/pingack" then Some (handlePingAckMessage message s)
  else if startsWith address "/led" then handleLedMessage message s
  else if startsWith address "/display" then handleDisplayMessage message s
  else if startsWith address "/heartbeat" then Some (handleHeartbeatMessage message s)
  else Some s.

(** ** Connection manager *)

Definition isValidOscPort (port : Z) : bool :=
  bool_decide (0 < port) && bool_decide (port < 65536).

Definition connect (e : Env) (s : App) : App :=
  let portToConnect := oscReceivePort_ s in
  if negb (isValidOscPort portToConnect) then s
  else if receiverConnects e then set_currentReceivePort portToConnect s
  else s.

Definition tryToConnectOsc (e : Env) (s : App) : bool * App :=
  let s1 :=
    if decide (currentSendPort_ s < 0)
    then (if senderConnects e then set_currentSendPort (oscSendPort_ s) s else s)
    else s in
  let s2 := if decide (currentReceivePort_ s1 < 0) then connect e s1 else s1 in
  if decide (0 < currentSendPort_ s2 ∧ 0 < currentReceivePort_ s2) then
    (true,
     if pinged_ s2 then s2
     else oscSend "/loop4r/ping"
            [localhost; Int32 (currentReceivePort_ s2); OscString "/pingack"] s2)
  else (false, s2).

(** ** Scheduler tick *)

Definition isNotEmpty (str : string) : bool :=
  match str with EmptyString => false | _ => true end.

(** [for (auto i = 0; i < NUM_LED_PEDALS; i++) ledOff (i);] *)
Fixpoint pedalsOff (n : nat) (i : Z) (s : App) : option App :=
  match n with
  | O => Some s
  | S n' => s1 ← ledOff i s; pedalsOff n' (i + 1) s1
  end.

Definition openMidiOut (e : Env) (s : App) : option App :=
  if isNotEmpty (midiOutName_ s) && negb (midiOut_ s) then
    if midiOpens e
    then pedalsOff (Z.to_nat NUM_LED_PEDALS) 0 (set_midiOut true s)
    else Some s
  else Some s.

Definition heartbeatProbe (s : App) : OscOut :=
  ("/loop4r/ping",
   [localhost; Int32 (currentReceivePort_ s); OscString "/heartbeat"]).

Definition checkHeartbeat (e : Env) (s : App) : App :=
  if decide (heartbeat_ s = 0) then
    oscSend (fst (heartbeatProbe s)) (snd (heartbeatProbe s)) s
  else if decide (heartbeat_ s < -5) then
    let s1 := set_currentSendPort (-1) (set_currentReceivePort (-1) s) in
    match tryToConnectOsc e s1 with
    | (true, s2) => set_heartbeat 5 s2
    | (false, s2) => s2
    end
  else set_heartbeat (heartbeat_ s - 1) s.

Definition isBlinking (st : LedStates) : bool :=
  match st with Blink | FastBlink => true | _ => false end.

Definition blinkReload (st : LedStates) : Z :=
  match st with Blink => TIMER_BLINK | _ => TIMER_FASTBLINK end.

(** The body of [for (auto&& led : leds_)] for the element at position
    [p].  [led] is a reference into the array, while [ledOn] and [ledOff]
    address the array through [led.index_]. *)
Definition blinkLed (p : nat) (s : App) : option App :=
  match leds_ s !! p with
  | None => Some s
  | Some led =>
      if isBlinking (state_ led) then
        if decide (timer_ led ≤ 0) then
          s1 ← (if on_ led then ledOff (index_ led) s else ledOn (index_ led) s);
          Some (set_leds (alter (withTimer (blinkReload (state_ led))) p (leds_ s1)) s1)
        else Some (set_leds (alter (withTimer (timer_ led - 1)) p (leds_ s)) s)
      else Some s
  end.

Fixpoint blinkLoop (ps : list nat) (s : App) : option App :=
  match ps with
  | [] => Some s
  | p :: ps' => s1 ← blinkLed p s; blinkLoop ps' s1
  end.

Definition blinkLeds (s : App) : option App :=
  blinkLoop (seq 0 (length (leds_ s))) s.

Definition timerCallback (e : Env) (s : App) : option App :=
  s0 ← openMidiOut e s;
  if decide (currentReceivePort_ s0 < 0 ∨ currentSendPort_ s0 < 0) then
    match tryToConnectOsc e s0 with
    | (true, s1) => Some (set_heartbeat 5 s1)
    | (false, s1) => Some s1
    end
  else blinkLeds (checkHeartbeat e s0).

(** The scheduler firing once per element of [es], with no message
    arriving in between. *)
Fixpoint runTicks (es : list Env) (s : App) : option App :=
  match es with
  | [] => Some s
  | e :: es' => s1 ← timerCallback e s; runTicks es' s1
  end.

(** ** Vocabulary of the properties *)

(** The test that opens [timerCallback]'s connection branch. *)
Definition linkDown (s : App) : Prop :=
  currentReceivePort_ s < 0 ∨ currentSendPort_ s < 0.

(** The tick [timerCallback e s] opens the MIDI device (and then switches
    the pedal LEDs off). *)
Definition opensMidi (e : Env) (s : App) : bool :=
  isNotEmpty (midiOutName_ s) && negb (midiOut_ s) && midiOpens e.

(** No later tick will open the MIDI device: it is open already, or no
    device name was configured. *)
Definition midiSettled (s : App) : Prop :=
  isNotEmpty (midiOutName_ s) && negb (midiOut_ s) = false.

(** Every LED of the registry carries its own position as [index_]. *)
Definition indexed (l : list LED) : Prop :=
  index_ <$> l = Z.of_nat <$> seq 0 (length l).

(** What one pass of the blink loop does to an LED that is addressed by
    its own position. *)
Definition blinkStep (led : LED) : LED :=
  if isBlinking (state_ led) then
    if decide (timer_ led ≤ 0)
    then mkLED (index_ led) (negb (on_ led)) (blinkReload (state_ led)) (state_ led)
    else withTimer (timer_ led - 1) led
  else led.

(** The frame written by that pass, if any. *)
Definition blinkFrames (led : LED) : list Frame :=
  if isBlinking (state_ led) && bool_decide (timer_ led ≤ 0)
  then [ccFrame (if on_ led then 107 else 106) (ledNumber (index_ led))]
  else [].

(** The well-formed four-field payload of [/pingack] and [/heartbeat]. *)
Definition sessionArgs (host version : string) (ledCount engineId : Z)
    : list OSCArgument :=
  [OscString host; OscString version; Int32 ledCount; Int32 engineId].

(** ** Sample states and messages *)

Definition quietEnv : Env := mkEnv false true true.

(** The application right after the tick that connected both ports. *)
Definition freshlyConnected : App :=
  default (constructed 7 10 0 false)
    (timerCallback quietEnv (constructed 7 10 0 false)).

(** The three datagrams sent for one new LED slot of a rebuild:
    [registerAutoUpdates (false)] followed by [getCurrentState (i)]. *)
Definition resyncRequests (port : Z) : list OscOut :=
  [("/loop4r/register_auto_update", [localhost; Int32 port]);
   ("/loop4r/leds", [localhost; Int32 port; OscString "/led"]);
   ("/loop4r/display", [localhost; Int32 port; OscString "/display"])].

(** The address patterns dispatched by [oscMessageReceived]. *)
Definition recognized (m : OSCMessage) : bool :=
  startsWith (addressPattern m) "/pingack"
  || startsWith (addressPattern m) "/led"
  || startsWith (addressPattern m) "/display"
  || startsWith (addressPattern m) "/heartbeat".

(** What the first two iterations of an argument loop record. *)
Definition sessionHead (a0 a1 : OSCArgument) (s : App) : App :=
  let s0 := match a0 with OscString v => set_hostUrl v s | _ => s end in
  match a1 with OscString v => set_version v s0 | _ => s0 end.

(** Closed form of an LED that is due ([timer_ <= 0]) when the first of
    [n] passes of the blink loop reaches it, for a cycle of [period]
    passes: it flips at passes 1, 1 + period, 1 + 2 * period, ... *)
Definition blinkAfter (period n : nat) (led : LED) : LED :=
  match n with
  | O => led
  | S m => mkLED (index_ led) (xorb (on_ led) (Nat.even (m / period)))
             (Z.of_nat (period - 1 - m mod period)) (state_ led)
  end.

(** [freshlyConnected] after the update
    [/led 3 1 0 2] (LED 3: on, timer 0, Blink) and after
    [/led 4 1 0 3] (LED 4: on, timer 0, FastBlink). *)
Definition blinkingApp : App :=
  let s1 := default freshlyConnected
              (handleLedMessage (mkMsg "/led" [Int32 3; Int32 1; Int32 0; Int32 2])
                 freshlyConnected) in
  default s1 (handleLedMessage (mkMsg "/led" [Int32 4; Int32 1; Int32 0; Int32 3]) s1).

(** Whether the LED at position [p] is on after [n] idle ticks. *)
Definition onAfter (n p : nat) (s : App) : option bool :=
  s' ← runTicks (replicate n quietEnv) s; led ← leds_ s' !! p; Some (on_ led).

(** The identity probe sent by [tryToConnectOsc]. *)
Definition identityProbe (s : App) : OscOut :=
  ("/loop4r/ping",
   [localhost; Int32 (currentReceivePort_ s); OscString "/pingack"]).

(** The registry with the LEDs at positions [first .. first + n - 1]
    switched off. *)
Definition pedalsDark (first n : nat) (l : list LED) : list LED :=
  imap (λ p led, if decide (first ≤ p < first + n)%nat then withOn false led else led) l.

(** The frames written by [ledOff (first)], ..., [ledOff (first + n - 1)]. *)
Definition pedalsDarkFrames (first n : nat) : list Frame :=
  (λ i, ccFrame 107 (ledNumber i)) <$> seqZ (Z.of_nat first) (Z.of_nat n).

(** ** Vocabulary of the further properties *)

(** The tracked LED count does not exceed the registry, so every index
    accepted by [handleLedMessage] is inside the array. *)
Definition sized (s : App) : Prop :=
  ledCount_ s ≤ Z.of_nat (length (leds_ s)).

(** The registry is indexed by position and the tracked count is its
    size: the state left by a rebuild. *)
Definition synced (s : App) : Prop :=
  indexed (leds_ s) ∧ ledCount_ s = Z.of_nat (length (leds_ s)).

(** The int32 (the string) at position [k] of an argument list, or [d]
    when that argument is missing or has another type. *)
Definition int32At (args : list OSCArgument) (k : nat) (d : Z) : Z :=
  match args !! k with Some (Int32 v) => v | _ => d end.
Definition stringAt (args : list OSCArgument) (k : nat) (d : string) : string :=
  match args !! k with Some (OscString v) => v | _ => d end.

(** The four session fields taken from the positions 0..3 of an
    identity-probe response. *)
Definition recordSession (args : list OSCArgument) (s : App) : App :=
  set_engineId (int32At args 3 (engineId_ s))
    (set_ledCount (int32At args 2 (ledCount_ s))
       (set_version (stringAt args 1 (version_ s))
          (set_hostUrl (stringAt args 0 (hostUrl_ s)) s))).

(** Host and version taken from the positions 0 and 1 of a heartbeat. *)
Definition recordHost (args : list OSCArgument) (s : App) : App :=
  set_version (stringAt args 1 (version_ s))
    (set_hostUrl (stringAt args 0 (hostUrl_ s)) s).

(** The frames written by the [updateLeds] calls of a rebuild of [K]
    LEDs: after the LED [k] is added, one LED-off frame for each of the
    LEDs [0 .. k]. *)
Definition rebuildFrames (K : nat) : list Frame :=
  mjoin ((λ k, (λ i, ccFrame 107 (ledNumber i)) <$> seqZ 0 (Z.of_nat (S k)))
           <$> seq 0 K).

(** ** Command-line shell

    The part of the shell that changes the state: the numeric limits and
    [executeCommand].  The JUCE functions it calls are not part of the
    sources: [jlimit] is given its documented meaning, and the string
    functions of [asDecOrHexIntValue] are taken as they come, in the
    record [StringOps]. *)

Inductive CommandIndex := NONE | LIST | DEVICE_OUT | CHANNEL | OSC_IN | OSC_OUT.

Record ApplicationCommand := mkCommand {
  param_ : string;
  altParam_ : string;
  command_ : CommandIndex;
  expectedOptions_ : Z;
  optionsDescription_ : string;
  commandDescription_ : string;
  opts_ : list string
}.

(** [cmd.opts_[0]]: a [StringArray] yields the empty string outside its
    bounds. *)
Definition opt0 (cmd : ApplicationCommand) : string :=
  default "" (opts_ cmd !! 0%nat).

(** JUCE's [jlimit (lowerLimit, upperLimit, valueToConstrain)]. *)
Definition jlimit (lowerLimit upperLimit valueToConstrain : Z) : Z :=
  if decide (valueToConstrain < lowerLimit) then lowerLimit
  else if decide (upperLimit < valueToConstrain) then upperLimit
  else valueToConstrain.

Definition uint16 (v : Z) : Z := v mod 65536.

Definition limit7Bit (value : Z) : Z := uint8 (jlimit 0 127 value).
Definition limit14Bit (value : Z) : Z := uint16 (jlimit 0 16383 value).
Definition limit16Bit (value : Z) : Z := uint16 (jlimit 0 65535 value).

(** JUCE's [String::getIntValue], [String::getHexValue32],
    [String::endsWithIgnoreCase] and [String::dropLastCharacters]. *)
Record StringOps := mkStringOps {
  getIntValue : string → Z;
  getHexValue32 : string → Z;
  endsWithIgnoreCase : string → string → bool;
  dropLastCharacters : Z → string → string
}.

(** The members of the application object that only the shell uses,
    around the state of the core. *)
Record Shell := mkShell {
  core : App;
  channel_ : Z;
  useHexadecimalsByDefault_ : bool;
  quitRequested : bool
}.

Definition set_core (a : App) (sh : Shell) : Shell :=
  mkShell a (channel_ sh) (useHexadecimalsByDefault_ sh) (quitRequested sh).

Definition asDecOrHexIntValue (j : StringOps) (sh : Shell) (value : string) : Z :=
  if endsWithIgnoreCase j value "H"
  then getHexValue32 j (dropLastCharacters j 1 value)
  else if endsWithIgnoreCase j value "M" then getIntValue j value
  else if useHexadecimalsByDefault_ sh then getHexValue32 j value
  else getIntValue j value.

Definition asPortNumber (j : StringOps) (sh : Shell) (value : string) : Z :=
  uint16 (limit16Bit (asDecOrHexIntValue j sh value)).

Definition asDecOrHex7BitValue (j : StringOps) (sh : Shell) (value : string) : Z :=
  uint8 (limit7Bit (asDecOrHexIntValue j sh value)).

Definition asDecOrHex14BitValue (j : StringOps) (sh : Shell) (value : string) : Z :=
  uint16 (limit14Bit (asDecOrHexIntValue j sh value)).

Definition set_midiOutName (v : string) (s : App) : App :=
  mkApp (currentReceivePort_ s) (currentSendPort_ s) (oscSendPort_ s)
    (oscReceivePort_ s) (engineId_ s) (leds_ s) v (midiOut_ s)
    (ledCount_ s) (pinged_ s) (hostUrl_ s) (version_ s) (heartbeat_ s)
    (heartbeatOn_ s) (oscSent s) (midiWritten s).
Definition set_oscSendPort (v : Z) (s : App) : App :=
  mkApp (currentReceivePort_ s) (currentSendPort_ s) v
    (oscReceivePort_ s) (engineId_ s) (leds_ s) (midiOutName_ s) (midiOut_ s)
    (ledCount_ s) (pinged_ s) (hostUrl_ s) (version_ s) (heartbeat_ s)
    (heartbeatOn_ s) (oscSent s) (midiWritten s).
Definition set_oscReceivePort (v : Z) (s : App) : App :=
  mkApp (currentReceivePort_ s) (currentSendPort_ s) (oscSendPort_ s)
    v (engineId_ s) (leds_ s) (midiOutName_ s) (midiOut_ s)
    (ledCount_ s) (pinged_ s) (hostUrl_ s) (version_ s) (heartbeat_ s)
    (heartbeatOn_ s) (oscSent s) (midiWritten s).

(** [executeCommand].  Console output is left out; [LIST] ends in
    [systemRequestedQuit ()], recorded in [quitRequested].  The
    [default] branch of the switch is not reached by a value of the
    enumeration. *)
Definition executeCommand (j : StringOps) (e : Env) (cmd : ApplicationCommand)
    (sh : Shell) : option Shell :=
  match command_ cmd with
  | NONE => Some sh
  | LIST =>
      Some (mkShell (core sh) (channel_ sh) (useHexadecimalsByDefault_ sh) true)
  | CHANNEL =>
      Some (mkShell (core sh) (asDecOrHex7BitValue j sh (opt0 cmd))
              (useHexadecimalsByDefault_ sh) (quitRequested sh))
  | DEVICE_OUT =>
      let s1 := set_midiOutName (opt0 cmd) (set_midiOut false (core sh)) in
      if midiOpens e then
        s2 ← pedalsOff (Z.to_nat NUM_LED_PEDALS) 0 (set_midiOut true s1);
        Some (set_core s2 sh)
      else Some (set_core s1 sh)
  | OSC_OUT =>
      let s1 := set_oscSendPort (asPortNumber j sh (opt0 cmd)) (core sh) in
      if negb (senderConnects e) then Some (set_core s1 sh)
      else Some (set_core (set_currentSendPort (oscSendPort_ s1) s1) sh)
  | OSC_IN =>
      let s1 := set_oscReceivePort (asPortNumber j sh (opt0 cmd)) (core sh) in
      Some (set_core (tryToConnectOsc e s1).2 sh)
  end.

(** [disconnect] and [isConnected]; the boolean argument is the answer
    of [oscReceiver.disconnect]. *)
Definition disconnect (disconnected : bool) (s : App) : App :=
  if disconnected then set_currentReceivePort (-1) s else s.

Definition isConnected (s : App) : bool :=
  negb (bool_decide (currentReceivePort_ s = -1)).

(** The shell right after the constructor. *)
Definition constructedShell (engineId ledCount heartbeat : Z) (pinged : bool) : Shell :=
  mkShell (constructed engineId ledCount heartbeat pinged) 1 false false.

(** String functions that read every value as the same number, for
    examples. *)
Definition constantOps (v : Z) : StringOps :=
  mkStringOps (λ _, v) (λ _, v) (λ _ _, false) (λ _ str, str).

(** * Properties *)

(** ** Pedal wiring *)

(** C8.  On the slots 0..11, [ledNumber] sends 0..8 to 1..9, 9 to 0 and
    leaves 10 and 11 in place; it maps 0..11 into 0..11 and [pedalIndex]
    is its inverse on both sides, so the wiring is a permutation. *)
Theorem pedal_wiring_permutation (p : Z) :
  0 ≤ p < 12 →
  ledNumber p = (if decide (p ≤ 8) then p + 1 else if decide (p = 9) then 0 else p)
  ∧ 0 ≤ ledNumber p < 12
  ∧ 0 ≤ pedalIndex p < 12
  ∧ pedalIndex (ledNumber p) = p
  ∧ ledNumber (pedalIndex p) = p.
Proof.
  intros Hp.
  assert (Hcases : p = 0 ∨ p = 1 ∨ p = 2 ∨ p = 3 ∨ p = 4 ∨ p = 5 ∨ p = 6
                   ∨ p = 7 ∨ p = 8 ∨ p = 9 ∨ p = 10 ∨ p = 11) by lia.
  repeat (destruct Hcases as [-> | Hcases]); try subst p; vm_compute; intuition congruence.
Qed.

Lemma pedal_wiring_permutation_at_9 :
  0 ≤ 9 < 12
  ∧ ledNumber 9 = 0
  ∧ 0 ≤ ledNumber 9 < 12
  ∧ 0 ≤ pedalIndex 9 < 12
  ∧ pedalIndex (ledNumber 9) = 9
  ∧ ledNumber (pedalIndex 9) = 9.
Proof. split; [lia | apply (pedal_wiring_permutation 9); lia]. Defined.

(** ** LED updates *)

Lemma handleLedMessage_dropped (m : OSCMessage) (s : App) (idx : Z)
    (rest : list OSCArgument) :
  arguments m = Int32 idx :: rest →
  idx < 0 ∨ ledCount_ s ≤ idx →
  handleLedMessage m s = Some s.
Proof.
  intros Hm Hidx. unfold handleLedMessage. rewrite Hm.
  destruct (decide _) as [_ | Hn]; [done | tauto].
Qed.

(** C6.  An LED update whose index argument lies outside
    [0, ledCount_) returns the application state as it was: no LED is
    changed and nothing is written to the MIDI device. *)
Theorem led_update_out_of_range_dropped (m : OSCMessage) (s : App) (idx : Z)
    (rest : list OSCArgument) :
  arguments m = Int32 idx :: rest →
  idx < 0 ∨ ledCount_ s ≤ idx →
  ∃ s', handleLedMessage m s = Some s'
        ∧ leds_ s' = leds_ s ∧ midiWritten s' = midiWritten s ∧ s' = s.
Proof.
  intros Hm Hidx. exists s. by rewrite (handleLedMessage_dropped m s idx rest).
Qed.

Lemma led_update_out_of_range_dropped_at_12 :
  let m := mkMsg "/led" [Int32 12; Int32 1; Int32 0; Int32 1] in
  let s := freshlyConnected in
  (12 < 0 ∨ ledCount_ s ≤ 12)
  ∧ ∃ s', handleLedMessage m s = Some s'
          ∧ leds_ s' = leds_ s ∧ midiWritten s' = midiWritten s ∧ s' = s.
Proof.
  split; [right; vm_compute; discriminate |].
  apply (led_update_out_of_range_dropped _ _ 12 [Int32 1; Int32 0; Int32 1]);
    [reflexivity | right; vm_compute; discriminate].
Defined.

(** ** Registry rebuild and growth loops *)

Lemma rebuildLoop_leds n : ∀ i s,
  leds_ (rebuildLoop n i s) = leds_ s ++ (freshLed <$> seqZ i (Z.of_nat n)).
Proof.
  induction n as [|n IH]; intros i s.
  - simpl. by rewrite app_nil_r.
  - cbn [rebuildLoop]. rewrite IH, Nat2Z.inj_succ, (seqZ_cons i) by lia.
    rewrite fmap_cons. cbn [leds_ updateLeds getCurrentState registerAutoUpdates
      oscSend midiWrite set_leds]. rewrite <- app_assoc. cbn [app].
    do 3 f_equal. f_equal; lia.
Qed.

Lemma rebuildLoop_oscSent n : ∀ i s,
  oscSent (rebuildLoop n i s)
  = oscSent s ++ mjoin (replicate n (resyncRequests (currentReceivePort_ s))).
Proof.
  induction n as [|n IH]; intros i s.
  - simpl. by rewrite app_nil_r.
  - cbn [rebuildLoop]. rewrite IH. cbn. by rewrite <- !app_assoc.
Qed.

Lemma rebuildLoop_fields n : ∀ i s,
  let s' := rebuildLoop n i s in
  engineId_ s' = engineId_ s ∧ ledCount_ s' = ledCount_ s
  ∧ hostUrl_ s' = hostUrl_ s ∧ version_ s' = version_ s
  ∧ heartbeat_ s' = heartbeat_ s ∧ heartbeatOn_ s' = heartbeatOn_ s
  ∧ currentReceivePort_ s' = currentReceivePort_ s
  ∧ currentSendPort_ s' = currentSendPort_ s.
Proof.
  induction n as [|n IH]; intros i s; [done|].
  cbn [rebuildLoop]. cbv zeta in IH |- *.
  match goal with |- context [rebuildLoop n ?j ?t] => specialize (IH j t) end.
  cbn in IH. exact IH.
Qed.

Lemma appendLoop_leds n : ∀ i s,
  leds_ (appendLoop n i s) = leds_ s ++ (freshLed <$> seqZ i (Z.of_nat n)).
Proof.
  induction n as [|n IH]; intros i s.
  - simpl. by rewrite app_nil_r.
  - cbn [appendLoop]. rewrite IH, Nat2Z.inj_succ, (seqZ_cons i) by lia.
    rewrite fmap_cons. cbn [leds_ updateLeds getCurrentState registerAutoUpdates
      oscSend midiWrite set_leds]. rewrite <- app_assoc. cbn [app].
    do 3 f_equal. f_equal; lia.
Qed.

Lemma appendLoop_fields n : ∀ i s,
  let s' := appendLoop n i s in
  engineId_ s' = engineId_ s ∧ ledCount_ s' = ledCount_ s
  ∧ hostUrl_ s' = hostUrl_ s ∧ version_ s' = version_ s
  ∧ heartbeat_ s' = heartbeat_ s ∧ heartbeatOn_ s' = heartbeatOn_ s
  ∧ currentReceivePort_ s' = currentReceivePort_ s
  ∧ currentSendPort_ s' = currentSendPort_ s
  ∧ midiOutName_ s' = midiOutName_ s ∧ midiOut_ s' = midiOut_ s.
Proof.
  induction n as [|n IH]; intros i s; [done|].
  cbn [appendLoop]. cbv zeta in IH |- *.
  match goal with |- context [appendLoop n ?j ?t] => specialize (IH j t) end.
  cbn in IH. exact IH.
Qed.

(** ** Argument loops *)

Lemma heartbeatArgs_surplus extra : ∀ i s numleds uid,
  (4 ≤ i)%nat → heartbeatArgs i extra s numleds uid = (s, numleds, uid).
Proof.
  induction extra as [|a extra IH]; intros i s numleds uid Hi; [done|].
  cbn [heartbeatArgs].
  do 4 (destruct i as [|i]; [lia|]). apply IH; lia.
Qed.

Lemma heartbeatArgs_session a0 a1 N uid extra s :
  heartbeatArgs 0%nat (a0 :: a1 :: Int32 N :: Int32 uid :: extra) s 0 (engineId_ s)
  = (sessionHead a0 a1 s, N, uid).
Proof. cbn [heartbeatArgs]. cbn. by rewrite heartbeatArgs_surplus by lia. Qed.

Lemma sessionHead_fields a0 a1 s :
  let s' := sessionHead a0 a1 s in
  engineId_ s' = engineId_ s ∧ ledCount_ s' = ledCount_ s
  ∧ leds_ s' = leds_ s ∧ heartbeat_ s' = heartbeat_ s
  ∧ heartbeatOn_ s' = heartbeatOn_ s
  ∧ currentReceivePort_ s' = currentReceivePort_ s
  ∧ currentSendPort_ s' = currentSendPort_ s
  ∧ midiOutName_ s' = midiOutName_ s ∧ midiOut_ s' = midiOut_ s
  ∧ oscSent s' = oscSent s ∧ midiWritten s' = midiWritten s.
Proof. destruct a0, a1; done. Qed.

(** ** Heartbeats from the tracked engine *)

Lemma heartbeat_same_engine m s a0 a1 N uid extra :
  arguments m = a0 :: a1 :: Int32 N :: Int32 uid :: extra →
  uid = engineId_ s →
  let s1 := sessionHead a0 a1 s in
  let s2 := if decide (ledCount_ s = N) then s1
            else set_ledCount N
                   (appendLoop (Z.to_nat (N - ledCount_ s)) (ledCount_ s) s1) in
  handleHeartbeatMessage m s
  = set_heartbeat 5
      (set_heartbeatOn (negb (heartbeatOn_ s))
         (midiWrite [ccFrame (if heartbeatOn_ s then 107 else 106) 23] s2)).
Proof.
  intros Hm Huid. unfold handleHeartbeatMessage.
  rewrite Hm, heartbeatArgs_session.
  destruct (sessionHead_fields a0 a1 s) as (He & Hc & _ & _ & Hon & _).
  cbv zeta in He, Hc, Hon |- *. rewrite He, Hc.
  destruct (decide (uid ≠ engineId_ s)) as [|_]; [done|].
  destruct (decide (ledCount_ s ≠ N)), (decide (ledCount_ s = N)); try done.
  - destruct (appendLoop_fields (Z.to_nat (N - ledCount_ s)) (ledCount_ s)
                (sessionHead a0 a1 s)) as (_ & _ & _ & _ & _ & Hon' & _).
    cbv zeta in Hon'. cbn. by rewrite Hon', Hon.
  - cbn. by rewrite Hon.
Qed.

(** C7 as stated fails: the growth loop starts at the tracked count
    [ledCount_], not at the size of the registry.  After a heartbeat of
    the tracked engine has lowered the tracked count to 4 (the registry
    keeps its 10 LEDs), a heartbeat reporting 12 LEDs appends 8 LEDs
    numbered 4..11, not the 2 LEDs numbered 10 and 11. *)
Lemma heartbeat_growth_after_shrink_appends_from_count :
  let shrink := mkMsg "/heartbeat" (sessionArgs "host" "1.0" 4 7) in
  let m := mkMsg "/heartbeat" (sessionArgs "host" "1.0" 12 7) in
  let s := handleHeartbeatMessage shrink freshlyConnected in
  let s' := handleHeartbeatMessage m s in
  engineId_ s = 7
  ∧ length (leds_ s) = 10%nat
  ∧ ledCount_ s = 4
  ∧ length (leds_ s') = 18%nat
  ∧ index_ <$> leds_ s' = [0; 1; 2; 3; 4; 5; 6; 7; 8; 9; 4; 5; 6; 7; 8; 9; 10; 11].
Proof. vm_compute. repeat split; reflexivity. Qed.

(** C7, amended.  A heartbeat from the tracked engine that reports [N]
    LEDs while [M < N] are tracked ([ledCount_ = M]) appends, behind the
    LEDs already present, the [N - M] LEDs with the indices [M .. N-1],
    each one off, with timer 0 and Dark, leaves the LEDs already present
    as they were and tracks [N] LEDs afterwards.  When the registry holds
    exactly the [M] tracked LEDs, it holds [N] LEDs afterwards and the new
    LED with index [i] is the one at position [i]. *)
Theorem heartbeat_growth_appends m s a0 a1 N uid extra :
  arguments m = a0 :: a1 :: Int32 N :: Int32 uid :: extra →
  uid = engineId_ s →
  ledCount_ s < N →
  let M := ledCount_ s in
  let s' := handleHeartbeatMessage m s in
  leds_ s' = leds_ s ++ ((λ i, mkLED i false 0 Dark) <$> seqZ M (N - M))
  ∧ Z.of_nat (length (leds_ s')) = Z.of_nat (length (leds_ s)) + (N - M)
  ∧ ledCount_ s' = N
  ∧ (∀ (i : nat) (led : LED), leds_ s !! i = Some led → leds_ s' !! i = Some led)
  ∧ (Z.of_nat (length (leds_ s)) = M →
       Z.of_nat (length (leds_ s')) = N
       ∧ ∀ i, M ≤ i < N → leds_ s' !! Z.to_nat i = Some (mkLED i false 0 Dark)).
Proof.
  intros Hm Huid Hlt M s'.
  assert (Hleds : leds_ s'
            = leds_ s ++ ((λ i, mkLED i false 0 Dark) <$> seqZ M (N - M))).
  { subst s' M. rewrite (heartbeat_same_engine m s a0 a1 N uid extra Hm Huid).
    destruct (decide (ledCount_ s = N)); [lia|]. cbn.
    rewrite appendLoop_leds, Z2Nat.id by lia.
    by destruct (sessionHead_fields a0 a1 s) as (_ & _ & -> & _). }
  assert (Hlen : Z.of_nat (length (leds_ s'))
                 = Z.of_nat (length (leds_ s)) + (N - M)).
  { rewrite Hleds, length_app, length_fmap, length_seqZ. subst M. lia. }
  split; [exact Hleds|]. split; [exact Hlen|]. split; [|split].
  - subst s'. rewrite (heartbeat_same_engine m s a0 a1 N uid extra Hm Huid).
    by destruct (decide (ledCount_ s = N)); [lia|].
  - intros i led Hi. rewrite Hleds. by apply lookup_app_l_Some.
  - intros Hsize. split; [lia|]. intros i Hi.
    rewrite Hleds, lookup_app_r by lia.
    rewrite list_lookup_fmap.
    rewrite (proj2 (lookup_seqZ M (N - M) (Z.to_nat i - length (leds_ s)) i))
      by (split; lia).
    done.
Qed.

Lemma heartbeat_growth_appends_10_to_12 :
  let m := mkMsg "/heartbeat" (sessionArgs "host" "1.0" 12 7) in
  let s := freshlyConnected in
  (7 = engineId_ s ∧ ledCount_ s < 12)
  ∧ let M := ledCount_ s in
    let s' := handleHeartbeatMessage m s in
    leds_ s' = leds_ s ++ ((λ i, mkLED i false 0 Dark) <$> seqZ M (12 - M))
    ∧ Z.of_nat (length (leds_ s')) = Z.of_nat (length (leds_ s)) + (12 - M)
    ∧ ledCount_ s' = 12
    ∧ (∀ (i : nat) (led : LED), leds_ s !! i = Some led → leds_ s' !! i = Some led)
    ∧ (Z.of_nat (length (leds_ s)) = M →
         Z.of_nat (length (leds_ s')) = 12
         ∧ ∀ i, M ≤ i < 12 → leds_ s' !! Z.to_nat i = Some (mkLED i false 0 Dark)).
Proof.
  split; [split; reflexivity|].
  apply (heartbeat_growth_appends _ _ (OscString "host") (OscString "1.0") 12 7 []);
    reflexivity.
Defined.

(** ** The blink loop on a registry indexed by position *)

Lemma App_eta (s : App) :
  mkApp (currentReceivePort_ s) (currentSendPort_ s) (oscSendPort_ s)
    (oscReceivePort_ s) (engineId_ s) (leds_ s) (midiOutName_ s) (midiOut_ s)
    (ledCount_ s) (pinged_ s) (hostUrl_ s) (version_ s) (heartbeat_ s)
    (heartbeatOn_ s) (oscSent s) (midiWritten s) = s.
Proof. by destruct s. Qed.

Lemma indexed_lookup (l : list LED) (p : nat) (led : LED) :
  indexed l → l !! p = Some led → index_ led = Z.of_nat p.
Proof.
  unfold indexed. intros Hl Hp.
  assert (H : (index_ <$> l) !! p = Some (index_ led))
    by by rewrite list_lookup_fmap, Hp.
  rewrite Hl, list_lookup_fmap in H.
  destruct (seq 0 (length l) !! p) as [k|] eqn:Hk; [|done].
  apply lookup_seq in Hk as [-> _]. cbn in H. congruence.
Qed.

Lemma indexed_insert (l : list LED) (p : nat) (led : LED) :
  indexed l → index_ led = Z.of_nat p → indexed (<[p := led]> l).
Proof.
  unfold indexed. intros Hl Hp. rewrite length_insert, <- Hl.
  rewrite list_fmap_insert. apply list_insert_id'. intros Hlt.
  rewrite length_fmap in Hlt.
  destruct (lookup_lt_is_Some_2 l p Hlt) as [led0 H0].
  rewrite list_lookup_fmap, H0. cbn.
  by rewrite (indexed_lookup l p led0 Hl H0), Hp.
Qed.

Lemma getReference_of_nat (l : list LED) (p : nat) :
  getReference l (Z.of_nat p) = l !! p.
Proof.
  unfold getReference. rewrite bool_decide_true by lia. by rewrite Nat2Z.id.
Qed.

Lemma blinkLed_indexed (s : App) (p : nat) (led : LED) :
  indexed (leds_ s) → leds_ s !! p = Some led →
  blinkLed p s
  = Some (midiWrite (blinkFrames led)
            (set_leds (<[p := blinkStep led]> (leds_ s)) s)).
Proof.
  intros Hix Hp. pose proof (indexed_lookup _ _ _ Hix Hp) as Hidx.
  unfold blinkLed, blinkStep, blinkFrames. rewrite Hp.
  destruct (isBlinking (state_ led)) eqn:Hb; cbn [andb].
  - destruct (decide (timer_ led ≤ 0)) as [Ht|Ht].
    + rewrite bool_decide_true by done.
      unfold ledOff, ledOn. rewrite Hidx, getReference_of_nat, Hp, Nat2Z.id.
      destruct (on_ led) eqn:Hon; cbn; f_equal; unfold midiWrite, set_leds; cbn;
        f_equal; apply list_eq; intros q;
        (destruct (decide (p = q)) as [<-|Hq];
         [ rewrite !list_lookup_alter_eq, Hp, list_lookup_insert_eq
             by (eapply lookup_lt_Some; eauto); cbn; unfold withTimer, withOn; cbn;
             congruence
         | rewrite !list_lookup_alter_ne, list_lookup_insert_ne by done; done ]).
    + rewrite bool_decide_false by done. f_equal.
      rewrite <- (App_eta s) at 1. unfold midiWrite, set_leds. cbn.
      rewrite app_nil_r. f_equal. apply list_eq; intros q.
      destruct (decide (p = q)) as [<-|Hq].
      * rewrite list_lookup_alter_eq, Hp, list_lookup_insert_eq
          by (eapply lookup_lt_Some; eauto). done.
      * by rewrite list_lookup_alter_ne, list_lookup_insert_ne.
  - f_equal. rewrite <- (App_eta s) at 1. unfold midiWrite, set_leds. cbn.
    rewrite app_nil_r. f_equal. by rewrite list_insert_id.
Qed.

Lemma blinkStep_index (led : LED) : index_ (blinkStep led) = index_ led.
Proof.
  unfold blinkStep. destruct (isBlinking _); [|done].
  by destruct (decide _).
Qed.

Lemma blinkStep_state (led : LED) : state_ (blinkStep led) = state_ led.
Proof.
  unfold blinkStep. destruct (isBlinking _); [|done].
  by destruct (decide _).
Qed.

Lemma indexed_blinkStep (l : list LED) : indexed l → indexed (blinkStep <$> l).
Proof.
  unfold indexed. intros Hl. rewrite length_fmap, <- Hl, <- list_fmap_compose.
  apply list_fmap_ext. intros _ led _. apply blinkStep_index.
Qed.

Lemma blinkLoop_indexed (todo : list LED) : ∀ (done : list LED) (s : App),
  leds_ s = done ++ todo → indexed (leds_ s) →
  blinkLoop (seq (length done) (length todo)) s
  = Some (midiWrite (mjoin (blinkFrames <$> todo))
            (set_leds (done ++ (blinkStep <$> todo)) s)).
Proof.
  induction todo as [|led todo IH]; intros done s Hl Hix.
  - cbn. f_equal. rewrite <- (App_eta s) at 1. unfold midiWrite, set_leds. cbn.
    by rewrite Hl, !app_nil_r.
  - assert (Hp : leds_ s !! length done = Some led)
      by (rewrite Hl; apply list_lookup_middle; done).
    cbn [length seq blinkLoop]. rewrite (blinkLed_indexed s _ led Hix Hp). cbn [mbind option_bind].
    pose proof (indexed_lookup _ _ _ Hix Hp) as Hidx.
    assert (Hl' : <[length done := blinkStep led]> (leds_ s)
                  = (done ++ [blinkStep led]) ++ todo).
    { rewrite Hl, <- app_assoc. cbn.
      replace (length done) with (length done + 0)%nat at 1 by lia.
      by rewrite insert_app_r. }
    replace (S (length done)) with (length (done ++ [blinkStep led]))
      by (rewrite length_app; cbn; lia).
    rewrite IH.
    + f_equal. unfold midiWrite, set_leds. cbn. f_equal.
      * by rewrite <- app_assoc.
      * by rewrite <- app_assoc.
    + cbn. exact Hl'.
    + cbn. apply indexed_insert; [done|]. by rewrite blinkStep_index.
Qed.

Lemma blinkLeds_indexed (s : App) :
  indexed (leds_ s) →
  blinkLeds s
  = Some (midiWrite (mjoin (blinkFrames <$> leds_ s))
            (set_leds (blinkStep <$> leds_ s) s)).
Proof.
  intros Hix. unfold blinkLeds.
  exact (blinkLoop_indexed (leds_ s) [] s eq_refl Hix).
Qed.

(** ** Ticks while the link is up *)

Lemma openMidiOut_settled (e : Env) (s : App) :
  midiSettled s → openMidiOut e s = Some s.
Proof. unfold midiSettled, openMidiOut. by intros ->. Qed.

Lemma timerCallback_linked (e : Env) (s : App) :
  ¬ linkDown s → midiSettled s → 0 ≤ heartbeat_ s → indexed (leds_ s) →
  timerCallback e s
  = Some (midiWrite (mjoin (blinkFrames <$> leds_ s))
            (set_leds (blinkStep <$> leds_ s)
               (if decide (heartbeat_ s = 0)
                then oscSend (heartbeatProbe s).1 (heartbeatProbe s).2 s
                else set_heartbeat (heartbeat_ s - 1) s))).
Proof.
  intros Hup Hmidi Hhb Hix. unfold timerCallback.
  rewrite (openMidiOut_settled e s Hmidi). cbn [mbind option_bind].
  unfold linkDown in Hup. destruct (decide _) as [|_]; [done|].
  unfold checkHeartbeat.
  destruct (decide (heartbeat_ s = 0)) as [H0|H0].
  - by rewrite blinkLeds_indexed.
  - destruct (decide (heartbeat_ s < -5)); [lia|].
    by rewrite blinkLeds_indexed.
Qed.

Lemma runTicks_linked (es : list Env) : ∀ (s : App),
  ¬ linkDown s → midiSettled s → 0 ≤ heartbeat_ s → indexed (leds_ s) →
  ∃ s', runTicks es s = Some s'
    ∧ leds_ s' = Nat.iter (length es) blinkStep <$> leds_ s
    ∧ heartbeat_ s' = Z.max 0 (heartbeat_ s - Z.of_nat (length es))
    ∧ currentReceivePort_ s' = currentReceivePort_ s
    ∧ currentSendPort_ s' = currentSendPort_ s
    ∧ oscSent s' = oscSent s
        ++ replicate (length es - Z.to_nat (heartbeat_ s)) (heartbeatProbe s).
Proof.
  induction es as [|e es IH]; intros s Hup Hmidi Hhb Hix.
  - exists s. cbn. rewrite app_nil_r, list_fmap_id.
    repeat split; try done. lia.
  - cbn [runTicks]. rewrite (timerCallback_linked e s Hup Hmidi Hhb Hix).
    cbn [mbind option_bind].
    match goal with |- context [runTicks es ?t] => set (s1 := t) end.
    assert (Hleds1 : leds_ s1 = blinkStep <$> leds_ s) by done.
    assert (Hrp : currentReceivePort_ s1 = currentReceivePort_ s)
      by (subst s1; by destruct (decide _)).
    assert (Hsp : currentSendPort_ s1 = currentSendPort_ s)
      by (subst s1; by destruct (decide _)).
    assert (Hmidi1 : midiSettled s1)
      by (subst s1; unfold midiSettled in *; by destruct (decide _)).
    assert (Hup1 : ¬ linkDown s1) by (unfold linkDown in *; rewrite Hrp, Hsp; done).
    assert (Hix1 : indexed (leds_ s1))
      by (rewrite Hleds1; by apply indexed_blinkStep).
    assert (Hprobe : heartbeatProbe s1 = heartbeatProbe s)
      by (unfold heartbeatProbe; by rewrite Hrp).
    destruct (decide (heartbeat_ s = 0)) as [H0|H0].
    + assert (Hhb1 : heartbeat_ s1 = 0) by (subst s1; cbn; done).
      assert (Hosc1 : oscSent s1 = oscSent s ++ [heartbeatProbe s])
        by (subst s1; cbn; done).
      destruct (IH s1 Hup1 Hmidi1 ltac:(lia) Hix1)
        as (s' & Hrun & Hl & Hh & Hr & Hs & Ho).
      exists s'. rewrite Hrun, Hl, Hh, Hr, Hs, Ho, Hleds1, Hhb1, Hrp, Hsp, Hosc1,
        Hprobe, H0. repeat split; try done.
      * rewrite <- list_fmap_compose. apply list_fmap_ext. intros _ led _.
        cbn [length]. by rewrite Nat.iter_succ_r.
      * cbn [length]. lia.
      * rewrite <- app_assoc. cbn [length app]. f_equal.
        replace (S (length es) - Z.to_nat 0)%nat with (S (length es - Z.to_nat 0))
          by (cbn; lia).
        done.
    + assert (Hhb1 : heartbeat_ s1 = heartbeat_ s - 1) by (subst s1; cbn; done).
      assert (Hosc1 : oscSent s1 = oscSent s) by (subst s1; cbn; done).
      destruct (IH s1 Hup1 Hmidi1 ltac:(lia) Hix1)
        as (s' & Hrun & Hl & Hh & Hr & Hs & Ho).
      exists s'. rewrite Hrun, Hl, Hh, Hr, Hs, Ho, Hleds1, Hhb1, Hrp, Hsp, Hosc1,
        Hprobe. repeat split; try done.
      * rewrite <- list_fmap_compose. apply list_fmap_ext. intros _ led _.
        cbn [length]. by rewrite Nat.iter_succ_r.
      * cbn [length]. lia.
      * do 2 f_equal. cbn [length]. lia.
Qed.

(** C1.  From a state whose ports are bound and whose countdown is 5, with
    no message arriving, the countdown after [n] ticks is [5 - n] for
    [n <= 5]; from then on it stays at 0 and every tick sends one probe.
    The [heartbeat_ == 0] branch of the tick does not decrement, so the
    countdown never reaches -6 and the ports are never marked unbound. *)
Theorem idle_countdown_stops_at_zero (s : App) (es : list Env) :
  0 < currentReceivePort_ s → 0 < currentSendPort_ s →
  heartbeat_ s = 5 → midiSettled s → indexed (leds_ s) →
  ∃ s', runTicks es s = Some s'
    ∧ heartbeat_ s' = Z.max 0 (5 - Z.of_nat (length es))
    ∧ currentReceivePort_ s' = currentReceivePort_ s
    ∧ currentSendPort_ s' = currentSendPort_ s
    ∧ oscSent s' = oscSent s ++ replicate (length es - 5) (heartbeatProbe s).
Proof.
  intros Hr Hs Hhb Hmidi Hix.
  destruct (runTicks_linked es s) as (s' & Hrun & _ & Hh & Hr' & Hs' & Ho);
    [unfold linkDown; lia | done | lia | done |].
  exists s'. rewrite Hhb in Hh, Ho. by repeat split.
Qed.

Lemma idle_countdown_stops_at_zero_after_12_ticks :
  let s := freshlyConnected in
  let es := replicate 12 quietEnv in
  (0 < currentReceivePort_ s ∧ 0 < currentSendPort_ s ∧ heartbeat_ s = 5
   ∧ midiSettled s ∧ indexed (leds_ s))
  ∧ ∃ s', runTicks es s = Some s'
      ∧ heartbeat_ s' = Z.max 0 (5 - Z.of_nat (length es))
      ∧ currentReceivePort_ s' = currentReceivePort_ s
      ∧ currentSendPort_ s' = currentSendPort_ s
      ∧ oscSent s' = oscSent s ++ replicate (length es - 5) (heartbeatProbe s).
Proof.
  split; [repeat split; reflexivity |].
  apply (idle_countdown_stops_at_zero freshlyConnected (replicate 12 quietEnv));
    reflexivity.
Defined.

(** ** Blink schedule of one LED *)

Lemma blinkStep_idle (led : LED) (n : nat) :
  isBlinking (state_ led) = false → Nat.iter n blinkStep led = led.
Proof.
  intros Hb. induction n as [|n IH]; [done|].
  rewrite Nat.iter_succ, IH. unfold blinkStep. by rewrite Hb.
Qed.

Lemma blinkStep_due (led : LED) :
  isBlinking (state_ led) = true → timer_ led ≤ 0 →
  blinkStep led
  = mkLED (index_ led) (negb (on_ led)) (blinkReload (state_ led)) (state_ led).
Proof.
  intros Hb Ht. unfold blinkStep. rewrite Hb. by destruct (decide _).
Qed.

Lemma blink_cycles (idx : Z) (q : nat) : ∀ b,
  Nat.iter (4 * q) blinkStep (mkLED idx b 3 Blink)
  = mkLED idx (xorb b (Nat.odd q)) 3 Blink.
Proof.
  induction q as [|q IH]; intros b.
  - cbn. by rewrite xorb_false_r.
  - replace (4 * S q)%nat with (4 * q + 4)%nat by lia.
    rewrite Nat.iter_add. change (Nat.iter 4 blinkStep (mkLED idx b 3 Blink))
      with (mkLED idx (negb b) 3 Blink).
    rewrite IH, Nat.odd_succ, <- Nat.negb_odd. by destruct b, (Nat.odd q).
Qed.

Lemma fastBlink_cycles (idx : Z) (q : nat) : ∀ b,
  Nat.iter (2 * q) blinkStep (mkLED idx b 1 FastBlink)
  = mkLED idx (xorb b (Nat.odd q)) 1 FastBlink.
Proof.
  induction q as [|q IH]; intros b.
  - cbn. by rewrite xorb_false_r.
  - replace (2 * S q)%nat with (2 * q + 2)%nat by lia.
    rewrite Nat.iter_add. change (Nat.iter 2 blinkStep (mkLED idx b 1 FastBlink))
      with (mkLED idx (negb b) 1 FastBlink).
    rewrite IH, Nat.odd_succ, <- Nat.negb_odd. by destruct b, (Nat.odd q).
Qed.

Lemma blink_schedule (led : LED) (n : nat) :
  state_ led = Blink → timer_ led ≤ 0 →
  Nat.iter n blinkStep led = blinkAfter 4 n led.
Proof.
  intros Hst Ht. destruct n as [|m]; [done|].
  pose proof (Nat.div_mod_eq m 4) as Hm.
  pose proof (Nat.mod_upper_bound m 4 ltac:(lia)) as Hr.
  unfold blinkAfter. set (q := (m / 4)%nat) in *. set (r := (m mod 4)%nat) in *.
  replace (S m) with (r + (4 * q + 1))%nat by lia.
  rewrite !Nat.iter_add. cbn [Nat.iter nat_rect].
  rewrite blinkStep_due by (rewrite ?Hst; done). rewrite Hst. cbn [blinkReload].
  change TIMER_BLINK with 3. rewrite blink_cycles.
  rewrite <- Nat.negb_even.
  replace (xorb (negb (on_ led)) (negb (Nat.even q)))
    with (xorb (on_ led) (Nat.even q)) by (by destruct (on_ led), (Nat.even q)).
  destruct r as [|[|[|[|r]]]]; try lia; reflexivity.
Qed.

Lemma fastBlink_schedule (led : LED) (n : nat) :
  state_ led = FastBlink → timer_ led ≤ 0 →
  Nat.iter n blinkStep led = blinkAfter 2 n led.
Proof.
  intros Hst Ht. destruct n as [|m]; [done|].
  pose proof (Nat.div_mod_eq m 2) as Hm.
  pose proof (Nat.mod_upper_bound m 2 ltac:(lia)) as Hr.
  unfold blinkAfter. set (q := (m / 2)%nat) in *. set (r := (m mod 2)%nat) in *.
  replace (S m) with (r + (2 * q + 1))%nat by lia.
  rewrite !Nat.iter_add. cbn [Nat.iter nat_rect].
  rewrite blinkStep_due by (rewrite ?Hst; done). rewrite Hst. cbn [blinkReload].
  change TIMER_FASTBLINK with 1. rewrite fastBlink_cycles.
  rewrite <- Nat.negb_even.
  replace (xorb (negb (on_ led)) (negb (Nat.even q)))
    with (xorb (on_ led) (Nat.even q)) by (by destruct (on_ led), (Nat.even q)).
  destruct r as [|[|r]]; try lia; reflexivity.
Qed.

(** C4 as stated fails: the Blink LED 3 of [blinkingApp] flips at tick 1
    and next at tick 5 (not at tick 4), and the FastBlink LED 4 flips at
    ticks 1 and 3 but not at tick 2. *)
Lemma blink_period_is_not_three :
  (λ n, onAfter n 3 blinkingApp) <$> [0; 1; 2; 3; 4; 5]%nat
  = [Some true; Some false; Some false; Some false; Some false; Some true]
  ∧ (λ n, onAfter n 4 blinkingApp) <$> [0; 1; 2; 3]%nat
    = [Some true; Some false; Some false; Some true].
Proof. split; vm_compute; reflexivity. Qed.

(** C4, amended.  While the link stays up, on a registry indexed by
    position and with the MIDI device settled, [n] ticks without messages
    leave every LED in its state; a Blink LED that is due ([timer_ <= 0])
    flips at ticks 1, 5, 9, ... (every 4th tick, reload 3), a FastBlink
    LED that is due flips at ticks 1, 3, 5, ... (every 2nd tick, reload
    1), and a Dark or Light LED is never changed. *)
Theorem blink_toggle_schedule (s : App) (es : list Env) (p : nat) (led : LED) :
  ¬ linkDown s → midiSettled s → 0 ≤ heartbeat_ s → indexed (leds_ s) →
  leds_ s !! p = Some led →
  ∃ s' led', runTicks es s = Some s'
    ∧ leds_ s' !! p = Some led'
    ∧ state_ led' = state_ led
    ∧ (state_ led = Blink → timer_ led ≤ 0 → led' = blinkAfter 4 (length es) led)
    ∧ (state_ led = FastBlink → timer_ led ≤ 0 →
       led' = blinkAfter 2 (length es) led)
    ∧ (state_ led = Dark ∨ state_ led = Light → led' = led).
Proof.
  intros Hup Hmidi Hhb Hix Hp.
  destruct (runTicks_linked es s Hup Hmidi Hhb Hix) as (s' & Hrun & Hl & _).
  exists s', (Nat.iter (length es) blinkStep led).
  split; [done|]. split; [by rewrite Hl, list_lookup_fmap, Hp|].
  split; [|split; [|split]].
  - clear Hl. induction (length es) as [|n IH]; [done|].
    by rewrite Nat.iter_succ, blinkStep_state.
  - intros Hst Ht. by apply blink_schedule.
  - intros Hst Ht. by apply fastBlink_schedule.
  - intros Hst. apply blinkStep_idle. by destruct Hst as [-> | ->].
Qed.

Lemma blink_toggle_schedule_led3_5_ticks :
  let s := blinkingApp in
  let es := replicate 5 quietEnv in
  let led := mkLED 3 true 0 Blink in
  (¬ linkDown s ∧ midiSettled s ∧ 0 ≤ heartbeat_ s ∧ indexed (leds_ s)
   ∧ leds_ s !! 3%nat = Some led)
  ∧ ∃ s' led', runTicks es s = Some s'
      ∧ leds_ s' !! 3%nat = Some led'
      ∧ state_ led' = state_ led
      ∧ (state_ led = Blink → timer_ led ≤ 0 → led' = blinkAfter 4 (length es) led)
      ∧ (state_ led = FastBlink → timer_ led ≤ 0 →
         led' = blinkAfter 2 (length es) led)
      ∧ (state_ led = Dark ∨ state_ led = Light → led' = led).
Proof.
  assert (Hup : ¬ linkDown blinkingApp) by (vm_compute; intros [H|H]; discriminate H).
  assert (Hhb : 0 ≤ heartbeat_ blinkingApp) by (vm_compute; discriminate).
  split; [repeat split; try reflexivity; assumption |].
  apply (blink_toggle_schedule blinkingApp (replicate 5 quietEnv) 3
           (mkLED 3 true 0 Blink)); try reflexivity; assumption.
Defined.

(** ** Heartbeat reporting fewer LEDs *)




(** ** Ticks while the link is down *)

Lemma pedalsOff_spec (n : nat) : ∀ (first : nat) (s : App),
  (first + n ≤ length (leds_ s))%nat →
  pedalsOff n (Z.of_nat first) s
  = Some (midiWrite (pedalsDarkFrames first n)
            (set_leds (pedalsDark first n (leds_ s)) s)).
Proof.
  induction n as [|n IH]; intros first s Hlen.
  - cbn. f_equal. rewrite <- (App_eta s) at 1. unfold midiWrite, set_leds. cbn.
    rewrite app_nil_r. f_equal. apply list_eq. intros p.
    unfold pedalsDark. rewrite list_lookup_imap.
    destruct (leds_ s !! p); [|done]. cbn.
    by destruct (decide _); [lia|].
  - cbn [pedalsOff]. unfold ledOff at 1.
    rewrite getReference_of_nat, Nat2Z.id.
    destruct (lookup_lt_is_Some_2 (leds_ s) first ltac:(lia)) as [led Hled].
    rewrite Hled. cbn [mbind option_bind].
    replace (Z.of_nat first + 1) with (Z.of_nat (S first)) by lia.
    rewrite IH by (cbn; rewrite length_alter; lia).
    f_equal. unfold midiWrite, set_leds, pedalsDarkFrames. cbn. f_equal.
    + apply list_eq. intros p. unfold pedalsDark. rewrite !list_lookup_imap.
      destruct (decide (first = p)) as [<-|Hne].
      * rewrite list_lookup_alter_eq, Hled. cbn.
        destruct (decide _); [lia|]. by destruct (decide _); [|lia].
      * rewrite list_lookup_alter_ne by done.
        destruct (leds_ s !! p); [|done]. cbn.
        repeat destruct (decide _); try done; lia.
    + rewrite <- app_assoc. f_equal. rewrite (Nat2Z.inj_succ n).
      rewrite (seqZ_cons (Z.of_nat first)) by lia. cbn. do 2 f_equal.
      f_equal; lia.
Qed.

Lemma tryToConnectOsc_fields (e : Env) (s : App) :
  let s' := (tryToConnectOsc e s).2 in
  leds_ s' = leds_ s ∧ midiWritten s' = midiWritten s
  ∧ heartbeat_ s' = heartbeat_ s
  ∧ (oscSent s' = oscSent s ∨ oscSent s' = oscSent s ++ [identityProbe s']).
Proof.
  unfold tryToConnectOsc, connect.
  set (s1 := if decide (currentSendPort_ s < 0) then _ else _).
  assert (H1 : leds_ s1 = leds_ s ∧ midiWritten s1 = midiWritten s
               ∧ heartbeat_ s1 = heartbeat_ s ∧ oscSent s1 = oscSent s)
    by (subst s1; destruct (decide _); [destruct (senderConnects e)|]; done).
  clearbody s1.
  set (s2 := if decide (currentReceivePort_ s1 < 0) then _ else _).
  assert (H2 : leds_ s2 = leds_ s1 ∧ midiWritten s2 = midiWritten s1
               ∧ heartbeat_ s2 = heartbeat_ s1 ∧ oscSent s2 = oscSent s1).
  { subst s2. destruct (decide _); [|done].
    destruct (negb _); [done|]. by destruct (receiverConnects e). }
  clearbody s2.
  destruct H1 as (? & ? & ? & H3), H2 as (? & ? & ? & H6).
  destruct (decide _); cbn [snd]; [destruct (pinged_ s2)|]; cbn;
    (split; [congruence|]); (split; [congruence|]); (split; [congruence|]);
    [left; congruence | right | left; congruence].
  unfold identityProbe. cbn. by rewrite H6, H3.
Qed.





(** ** Countdown reset by inbound messages *)

Lemma pingAckArgs_complete (args : list OSCArgument) : ∀ (i : nat) (s : App),
  (i + length args ≤ 4)%nat → (pingAckArgs i args s).2 = true.
Proof.
  induction args as [|a args IH]; intros i s Hlen; [done|].
  cbn [length] in Hlen. cbn [pingAckArgs].
  do 4 (destruct i as [|i]; [apply IH; cbn; lia|]). lia.
Qed.

Lemma handlePingAckMessage_countdown (m : OSCMessage) (s : App) :
  arguments m ≠ [] → (length (arguments m) ≤ 4)%nat →
  heartbeat_ (handlePingAckMessage m s) = 5.
Proof.
  intros Hne Hlen. unfold handlePingAckMessage.
  destruct (arguments m) as [|a rest] eqn:Hargs; [done|].
  pose proof (pingAckArgs_complete (a :: rest) 0 s Hlen) as Hflag.
  destruct (pingAckArgs 0 (a :: rest) s) as [s1 flag]. cbn in Hflag. by subst flag.
Qed.

Lemma handleHeartbeatMessage_countdown (m : OSCMessage) (s : App) :
  arguments m ≠ [] → heartbeat_ (handleHeartbeatMessage m s) = 5.
Proof.
  intros Hne. unfold handleHeartbeatMessage.
  destruct (arguments m) as [|a rest]; [done|].
  by destruct (heartbeatArgs 0 (a :: rest) s 0 (engineId_ s)) as [[s1 n] u].
Qed.

Lemma handleLedMessage_countdown (m : OSCMessage) (s : App)
    (idx v1 v2 v3 : Z) (extra : list OSCArgument) (st : LedStates) :
  arguments m = Int32 idx :: Int32 v1 :: Int32 v2 :: Int32 v3 :: extra →
  0 ≤ idx < ledCount_ s → idx < Z.of_nat (length (leds_ s)) →
  LedStates_of_int v3 = Some st →
  ∃ s', handleLedMessage m s = Some s' ∧ heartbeat_ s' = 5.
Proof.
  intros Hm Hidx Hlen Hst. unfold handleLedMessage. rewrite Hm.
  destruct (decide _) as [|_]; [lia|].
  unfold getReference. rewrite (bool_decide_true (0 ≤ idx)) by lia.
  destruct (lookup_lt_is_Some_2 (leds_ s) (Z.to_nat idx) ltac:(lia)) as [led ->].
  cbn [mbind option_bind]. rewrite Hst. cbn [mbind option_bind].
  eexists. split; [done|]. done.
Qed.

(** An LED update whose index is outside [0, ledCount_) is dispatched to
    [handleLedMessage], which returns before the countdown is reset. *)
Lemma out_of_range_led_update_keeps_countdown :
  let m := mkMsg "/led" [Int32 12; Int32 1; Int32 0; Int32 1] in
  let s := set_heartbeat 0 freshlyConnected in
  recognized m = true ∧ heartbeat_ <$> oscMessageReceived m s = Some 0.
Proof. split; vm_compute; reflexivity. Qed.

(** The paths that do reset the countdown, whatever it was: a non-empty
    heartbeat; a non-empty identity-probe response of at most four
    arguments; an LED update with four int32 arguments, an index inside
    [0, ledCount_) and inside the registry, and a state code of the
    enumeration.  An LED update whose index is outside [0, ledCount_)
    leaves the countdown as it was. *)
Lemma accepted_messages_reset_countdown (m : OSCMessage) (s : App) :
  arguments m ≠ [] →
  heartbeat_ (handleHeartbeatMessage m s) = 5
  ∧ ((length (arguments m) ≤ 4)%nat → heartbeat_ (handlePingAckMessage m s) = 5)
  ∧ (∀ idx v1 v2 v3 extra st,
       arguments m = Int32 idx :: Int32 v1 :: Int32 v2 :: Int32 v3 :: extra →
       0 ≤ idx < ledCount_ s → idx < Z.of_nat (length (leds_ s)) →
       LedStates_of_int v3 = Some st →
       ∃ s', handleLedMessage m s = Some s' ∧ heartbeat_ s' = 5)
  ∧ (∀ idx rest,
       arguments m = Int32 idx :: rest → idx < 0 ∨ ledCount_ s ≤ idx →
       heartbeat_ <$> handleLedMessage m s = Some (heartbeat_ s)).
Proof.
  intros Hne. split; [by apply handleHeartbeatMessage_countdown|].
  split; [by apply handlePingAckMessage_countdown|]. split.
  - intros idx v1 v2 v3 extra st. apply handleLedMessage_countdown.
  - intros idx rest Hm Hidx.
    by rewrite (handleLedMessage_dropped m s idx rest Hm Hidx).
Qed.

Lemma accepted_messages_reset_countdown_from_zero :
  let m := mkMsg "/led" [Int32 3; Int32 1; Int32 0; Int32 2] in
  let s := set_heartbeat 0 freshlyConnected in
  arguments m ≠ []
  ∧ heartbeat_ (handleHeartbeatMessage m s) = 5
  ∧ ((length (arguments m) ≤ 4)%nat → heartbeat_ (handlePingAckMessage m s) = 5)
  ∧ (∀ idx v1 v2 v3 extra st,
       arguments m = Int32 idx :: Int32 v1 :: Int32 v2 :: Int32 v3 :: extra →
       0 ≤ idx < ledCount_ s → idx < Z.of_nat (length (leds_ s)) →
       LedStates_of_int v3 = Some st →
       ∃ s', handleLedMessage m s = Some s' ∧ heartbeat_ s' = 5)
  ∧ (∀ idx rest,
       arguments m = Int32 idx :: rest → idx < 0 ∨ ledCount_ s ≤ idx →
       heartbeat_ <$> handleLedMessage m s = Some (heartbeat_ s)).
Proof.
  split; [discriminate |].
  apply (accepted_messages_reset_countdown
           (mkMsg "/led" [Int32 3; Int32 1; Int32 0; Int32 2])
           (set_heartbeat 0 freshlyConnected)); discriminate.
Defined.

(** ** Heartbeat from another engine *)

Lemma rebuildLeds_leds (s : App) :
  leds_ (rebuildLeds s) = freshLed <$> seqZ 0 (Z.of_nat (Z.to_nat (ledCount_ s))).
Proof. unfold rebuildLeds. by rewrite rebuildLoop_leds. Qed.

Lemma rebuildLeds_oscSent (s : App) :
  oscSent (rebuildLeds s)
  = oscSent s ++ mjoin (replicate (Z.to_nat (ledCount_ s))
                          (resyncRequests (currentReceivePort_ s))).
Proof. unfold rebuildLeds. by rewrite rebuildLoop_oscSent. Qed.

Lemma rebuildLeds_fields (s : App) :
  let s' := rebuildLeds s in
  engineId_ s' = engineId_ s ∧ ledCount_ s' = ledCount_ s
  ∧ hostUrl_ s' = hostUrl_ s ∧ version_ s' = version_ s
  ∧ heartbeat_ s' = heartbeat_ s ∧ heartbeatOn_ s' = heartbeatOn_ s
  ∧ currentReceivePort_ s' = currentReceivePort_ s
  ∧ currentSendPort_ s' = currentSendPort_ s.
Proof. unfold rebuildLeds. apply (rebuildLoop_fields _ 0 (set_leds [] s)). Qed.

Lemma heartbeat_other_engine hb s host version K uid :
  arguments hb = sessionArgs host version K uid →
  uid ≠ engineId_ s → 0 < K →
  handleHeartbeatMessage hb s
  = let s2 := rebuildLeds (set_ledCount K (set_version version (set_hostUrl host s))) in
    set_heartbeat 5
      (set_heartbeatOn (negb (heartbeatOn_ s2))
         (midiWrite [ccFrame (if heartbeatOn_ s2 then 107 else 106) 23] s2)).
Proof.
  intros Hm Huid HK. unfold handleHeartbeatMessage.
  rewrite Hm. unfold sessionArgs. rewrite heartbeatArgs_session.
  cbn [sessionHead]. cbn [engineId_ set_version set_hostUrl].
  destruct (decide (uid ≠ engineId_ s)) as [_|]; [|done].
  by destruct (decide (0 < K)); [|lia].
Qed.

Lemma pingAck_session pa s host version K uid :
  arguments pa = sessionArgs host version K uid → 0 < K →
  handlePingAckMessage pa s
  = set_heartbeat 5
      (rebuildLeds (set_engineId uid
         (set_ledCount K (set_version version (set_hostUrl host s))))).
Proof.
  intros Hm HK. unfold handlePingAckMessage. rewrite Hm. cbn.
  by destruct (decide (0 < K)); [|lia].
Qed.

(** C3.  For a heartbeat whose engine id differs from the tracked one and
    whose LED count [K] is positive, the registry, the LED count, the
    host and version, the resync requests and the countdown end up as
    after an identity-probe response with the same fields; the tracked
    [engineId_] does not: the response records the new id, the heartbeat
    keeps the old one, so the next heartbeat of that engine is again
    taken for a change of engine. *)
Theorem heartbeat_rebuild_keeps_old_engine_id (hb pa : OSCMessage) (s : App)
    (host version : string) (K uid : Z) :
  arguments hb = sessionArgs host version K uid →
  arguments pa = sessionArgs host version K uid →
  uid ≠ engineId_ s → 0 < K →
  let sh := handleHeartbeatMessage hb s in
  let sp := handlePingAckMessage pa s in
  leds_ sh = freshLed <$> seqZ 0 K
  ∧ leds_ sp = leds_ sh
  ∧ ledCount_ sh = K ∧ ledCount_ sp = K
  ∧ hostUrl_ sh = host ∧ hostUrl_ sp = host
  ∧ version_ sh = version ∧ version_ sp = version
  ∧ oscSent sh = oscSent s ++ mjoin (replicate (Z.to_nat K)
                                       (resyncRequests (currentReceivePort_ s)))
  ∧ oscSent sp = oscSent sh
  ∧ heartbeat_ sh = 5 ∧ heartbeat_ sp = 5
  ∧ engineId_ sp = uid
  ∧ engineId_ sh = engineId_ s
  ∧ engineId_ sh ≠ uid.
Proof.
  intros Hhb Hpa Huid HK sh sp.
  subst sh sp.
  rewrite (heartbeat_other_engine hb s host version K uid Hhb Huid HK).
  rewrite (pingAck_session pa s host version K uid Hpa HK). cbv zeta.
  set (s1 := set_ledCount K (set_version version (set_hostUrl host s))).
  set (s1' := set_engineId uid s1).
  destruct (rebuildLeds_fields s1) as (He & Hc & Hu & Hv & _).
  destruct (rebuildLeds_fields s1') as (He' & Hc' & Hu' & Hv' & _).
  cbv zeta in *.
  cbn [leds_ ledCount_ hostUrl_ version_ oscSent heartbeat_ engineId_
       set_heartbeat set_heartbeatOn midiWrite].
  rewrite !rebuildLeds_leds, !rebuildLeds_oscSent, He, Hc, Hu, Hv, He', Hc', Hu', Hv'.
  cbn [ledCount_ engineId_ hostUrl_ version_ oscSent currentReceivePort_ s1 s1'
       set_engineId set_ledCount set_version set_hostUrl].
  rewrite Z2Nat.id by lia.
  repeat split; done.
Qed.

Lemma heartbeat_rebuild_keeps_old_engine_id_restart :
  let hb := mkMsg "/heartbeat" (sessionArgs "host" "1.0" 3 8) in
  let pa := mkMsg "/pingack" (sessionArgs "host" "1.0" 3 8) in
  let s := freshlyConnected in
  (8 ≠ engineId_ s ∧ 0 < 3)
  ∧ let sh := handleHeartbeatMessage hb s in
    let sp := handlePingAckMessage pa s in
    leds_ sh = freshLed <$> seqZ 0 3
    ∧ leds_ sp = leds_ sh
    ∧ ledCount_ sh = 3 ∧ ledCount_ sp = 3
    ∧ hostUrl_ sh = "host" ∧ hostUrl_ sp = "host"
    ∧ version_ sh = "1.0" ∧ version_ sp = "1.0"
    ∧ oscSent sh = oscSent s ++ mjoin (replicate (Z.to_nat 3)
                                         (resyncRequests (currentReceivePort_ s)))
    ∧ oscSent sp = oscSent sh
    ∧ heartbeat_ sh = 5 ∧ heartbeat_ sp = 5
    ∧ engineId_ sp = 8
    ∧ engineId_ sh = engineId_ s
    ∧ engineId_ sh ≠ 8.
Proof.
  split; [split; [discriminate | reflexivity] |].
  apply (heartbeat_rebuild_keeps_old_engine_id _ _ freshlyConnected "host" "1.0" 3 8);
    [reflexivity | reflexivity | discriminate | reflexivity].
Defined.

(** ** LED update rejected half-way *)

(** C5.  An LED update with an index inside the registry and an int32
    on-flag but a third argument that is not an int32 is rejected (no
    frame is written, the countdown is not reset) only after the on-flag
    has been stored in the LED: the registry is changed whenever the
    stored flag differs from the LED's. *)
Theorem led_update_rejected_after_partial_write (m : OSCMessage) (s : App)
    (idx v1 : Z) (a2 : OSCArgument) (rest : list OSCArgument) (led : LED) :
  arguments m = Int32 idx :: Int32 v1 :: a2 :: rest →
  isInt32 a2 = false →
  0 ≤ idx < ledCount_ s →
  leds_ s !! Z.to_nat idx = Some led →
  ∃ s', handleLedMessage m s = Some s'
    ∧ leds_ s' = <[Z.to_nat idx := withOn (negb (bool_decide (v1 = 0))) led]> (leds_ s)
    ∧ midiWritten s' = midiWritten s
    ∧ heartbeat_ s' = heartbeat_ s
    ∧ (on_ led = bool_decide (v1 = 0) → leds_ s' ≠ leds_ s).
Proof.
  intros Hm Ha2 Hidx Hled. unfold handleLedMessage. rewrite Hm.
  destruct (decide _) as [|_]; [lia|].
  unfold getReference. rewrite (bool_decide_true (0 ≤ idx)) by lia. rewrite Hled.
  cbn [mbind option_bind].
  destruct a2 as [v| | |]; [done| | |];
    (eexists; split; [done|]; cbn; repeat split; try done;
     intros Hon Heq;
     assert (Hl : <[Z.to_nat idx := withOn (negb (bool_decide (v1 = 0))) led]>
                    (leds_ s) !! Z.to_nat idx = Some led) by (by rewrite Heq);
     rewrite list_lookup_insert_eq in Hl by (eapply lookup_lt_Some; eauto);
     injection Hl as Hl; apply (f_equal on_) in Hl; cbn in Hl;
     rewrite Hon in Hl; by destruct (bool_decide (v1 = 0))).
Qed.

Lemma led_update_rejected_after_partial_write_led0 :
  let m := mkMsg "/led" [Int32 0; Int32 1; OscString "x"] in
  let s := freshlyConnected in
  let led := freshLed 0 in
  (isInt32 (OscString "x") = false ∧ 0 ≤ 0 < ledCount_ s
   ∧ leds_ s !! Z.to_nat 0 = Some led)
  ∧ ∃ s', handleLedMessage m s = Some s'
      ∧ leds_ s' = <[Z.to_nat 0 := withOn (negb (bool_decide (1 = 0))) led]> (leds_ s)
      ∧ midiWritten s' = midiWritten s
      ∧ heartbeat_ s' = heartbeat_ s
      ∧ (on_ led = bool_decide (1 = 0) → leds_ s' ≠ leds_ s).
Proof.
  split; [repeat split; (reflexivity || (vm_compute; discriminate)) |].
  apply (led_update_rejected_after_partial_write _ freshlyConnected 0 1
           (OscString "x") [] (freshLed 0));
    [reflexivity | reflexivity | split; [lia | reflexivity] | reflexivity].
Defined.

(** C2.  A display update is a recognized message, yet processing it never
    sets the countdown to 5: [handleDisplayMessage], unlike the other
    three handlers, has no [heartbeat_ = 5], so the countdown keeps the
    value it had. *)
Theorem display_update_keeps_countdown (m : OSCMessage) (s : App) (v : Z)
    (rest : list OSCArgument) :
  arguments m = Int32 v :: rest → v ≠ INT_MAX →
  ∃ s', handleDisplayMessage m s = Some s' ∧ heartbeat_ s' = heartbeat_ s.
Proof.
  intros Hm Hv. unfold handleDisplayMessage. rewrite Hm.
  destruct (decide (v = INT_MAX)); [done|].
  destruct (decide _); eexists; (split; [done|]); done.
Qed.

Lemma display_update_keeps_countdown_loop_11 :
  let m := mkMsg "/display" [Int32 11] in
  let s := set_heartbeat 0 freshlyConnected in
  11 ≠ INT_MAX
  ∧ recognized m = true
  ∧ heartbeat_ <$> oscMessageReceived m s = Some 0
  ∧ ∃ s', handleDisplayMessage m s = Some s' ∧ heartbeat_ s' = heartbeat_ s.
Proof.
  split; [discriminate |]. split; [reflexivity |]. split; [reflexivity |].
  apply (display_update_keeps_countdown _ _ 11 []); [reflexivity | discriminate].
Defined.

(** * Further properties of the code *)

(** ** Hardware numbers of LEDs beyond the pedals *)

Lemma ledNumber_beyond_pedals (p : Z) : 10 ≤ p → ledNumber p = uint8 p.
Proof.
  intros Hp. destruct p as [|q|q]; [lia| |lia].
  unfold ledNumber.
  repeat (destruct q as [q|q|]; try lia; try reflexivity).
Qed.

Lemma ledNumber_pedals (p : Z) :
  0 ≤ p ≤ 9 → ledNumber p = (if decide (p = 9) then 0 else p + 1).
Proof.
  intros Hp.
  assert (Hcases : p = 0 ∨ p = 1 ∨ p = 2 ∨ p = 3 ∨ p = 4 ∨ p = 5 ∨ p = 6
                   ∨ p = 7 ∨ p = 8 ∨ p = 9) by lia.
  repeat (destruct Hcases as [-> | Hcases]); try subst p; reflexivity.
Qed.

(** X1.  On the indices 0..255 [ledNumber] is injective, so two different
    LEDs of the registry never share a hardware number, and [pedalIndex]
    undoes it; the value always fits a byte, and it is a MIDI data byte
    (at most 127) for every index up to 127. *)
Theorem ledNumber_injective_on_bytes (p q : Z) :
  0 ≤ p ≤ 255 → 0 ≤ q ≤ 255 →
  0 ≤ ledNumber p ≤ 255
  ∧ (p ≤ 127 → ledNumber p ≤ 127)
  ∧ pedalIndex (ledNumber p) = p
  ∧ (ledNumber p = ledNumber q → p = q).
Proof.
  intros Hp Hq.
  assert (Hval : ∀ r, 0 ≤ r ≤ 255 →
            ledNumber r = (if decide (r ≤ 9)
                           then if decide (r = 9) then 0 else r + 1 else r)).
  { intros r Hr. destruct (decide (r ≤ 9)).
    - apply ledNumber_pedals. lia.
    - rewrite ledNumber_beyond_pedals by lia. unfold uint8.
      apply Z.mod_small. lia. }
  rewrite (Hval p Hp), (Hval q Hq).
  split; [|split; [|split]].
  - repeat destruct (decide _); lia.
  - repeat destruct (decide _); lia.
  - destruct (decide (p ≤ 9)).
    + assert (Hcases : p = 0 ∨ p = 1 ∨ p = 2 ∨ p = 3 ∨ p = 4 ∨ p = 5 ∨ p = 6
                       ∨ p = 7 ∨ p = 8 ∨ p = 9) by lia.
      repeat (destruct Hcases as [-> | Hcases]); try subst p; reflexivity.
    + destruct p as [|r|r]; [lia| |lia]. unfold pedalIndex.
      repeat (destruct r as [r|r|]; try lia; try reflexivity).
  - repeat destruct (decide _); lia.
Qed.

Lemma ledNumber_injective_on_bytes_9_and_200 :
  (0 ≤ 9 ≤ 255 ∧ 0 ≤ 200 ≤ 255)
  ∧ 0 ≤ ledNumber 9 ≤ 255
  ∧ (9 ≤ 127 → ledNumber 9 ≤ 127)
  ∧ pedalIndex (ledNumber 9) = 9
  ∧ (ledNumber 9 = ledNumber 200 → 9 = 200).
Proof.
  split; [lia |]. apply (ledNumber_injective_on_bytes 9 200); lia.
Defined.

(** ** Two-digit display *)

Lemma midiWrite_midiWrite (fs gs : list Frame) (s : App) :
  midiWrite gs (midiWrite fs s) = midiWrite (fs ++ gs) s.
Proof. unfold midiWrite. cbn. by rewrite app_assoc. Qed.

(** X2.  For a zero-based loop index [v] from -1 to 2558 the display
    handler writes exactly two frames, CC 113 with the tens and CC 114
    with the ones of the one-based number [v + 1]: the ones are a decimal
    digit, the tens fit the byte, and the number is recovered as
    [10 * tens + ones].  Nothing else of the state changes. *)
Theorem display_digits_round_trip (m : OSCMessage) (s : App) (v : Z)
    (rest : list OSCArgument) :
  arguments m = Int32 v :: rest → -1 ≤ v ≤ 2558 →
  ∃ tens ones,
    handleDisplayMessage m s
    = Some (midiWrite [ccFrame 113 tens; ccFrame 114 ones] s)
    ∧ 0 ≤ tens ≤ 255 ∧ 0 ≤ ones ≤ 9 ∧ 10 * tens + ones = v + 1.
Proof.
  intros Hm Hv. unfold handleDisplayMessage. rewrite Hm.
  destruct (decide (v = INT_MAX)) as [->|_]; [unfold INT_MAX in Hv; lia|].
  cbv zeta.
  assert (Hq : Z.quot (v + 1) 10 = (v + 1) / 10) by (apply Z.quot_div_nonneg; lia).
  assert (Hr : Z.rem (v + 1) 10 = (v + 1) mod 10) by (apply Z.rem_mod_nonneg; lia).
  pose proof (Z.div_mod (v + 1) 10 ltac:(lia)) as Hdm.
  pose proof (Z.mod_pos_bound (v + 1) 10 ltac:(lia)) as Hmb.
  assert (Hqb : 0 ≤ (v + 1) / 10 ≤ 255).
  { split; [apply Z.div_pos; lia|].
    apply Z.lt_succ_r, Z.div_lt_upper_bound; lia. }
  exists ((v + 1) / 10), ((v + 1) mod 10).
  split; [|lia].
  rewrite Hq, Hr. unfold uint8.
  rewrite (Z.mod_small ((v + 1) mod 10) 256) by lia.
  destruct (decide (0 < (v + 1) / 10)) as [Hpos|Hzero].
  - rewrite (Z.mod_small ((v + 1) / 10) 256) by lia.
    by rewrite midiWrite_midiWrite.
  - replace ((v + 1) / 10) with 0 by lia. by rewrite midiWrite_midiWrite.
Qed.

Lemma display_digits_round_trip_loop_11 :
  let m := mkMsg "/display" [Int32 11] in
  let s := freshlyConnected in
  -1 ≤ 11 ≤ 2558
  ∧ ∃ tens ones,
      handleDisplayMessage m s
      = Some (midiWrite [ccFrame 113 tens; ccFrame 114 ones] s)
      ∧ 0 ≤ tens ≤ 255 ∧ 0 ≤ ones ≤ 9 ∧ 10 * tens + ones = 11 + 1.
Proof.
  split; [lia |].
  apply (display_digits_round_trip _ _ 11 []); [reflexivity | lia].
Defined.

(** ** Accepted and truncated LED updates *)

(** X3.  A complete LED update (index inside [0, ledCount_) and the
    registry, three more int32 arguments, state code of the enumeration)
    overwrites [on_], [timer_] and [state_] of the addressed LED only,
    keeps its [index_], writes exactly one frame for it (CC 106 when the
    on-flag is non-zero, CC 107 otherwise) and sets the countdown to 5;
    the LED count and the OSC trace are untouched. *)
Theorem led_update_overwrites_target_only (m : OSCMessage) (s : App)
    (idx v1 v2 v3 : Z) (extra : list OSCArgument) (st : LedStates) (led : LED) :
  arguments m = Int32 idx :: Int32 v1 :: Int32 v2 :: Int32 v3 :: extra →
  0 ≤ idx < ledCount_ s →
  leds_ s !! Z.to_nat idx = Some led →
  LedStates_of_int v3 = Some st →
  ∃ s', handleLedMessage m s = Some s'
    ∧ leds_ s' = <[Z.to_nat idx :=
                    mkLED (index_ led) (negb (bool_decide (v1 = 0))) v2 st]> (leds_ s)
    ∧ (∀ p, p ≠ Z.to_nat idx → leds_ s' !! p = leds_ s !! p)
    ∧ midiWritten s'
      = midiWritten s ++ [ccFrame (if bool_decide (v1 = 0) then 107 else 106)
                            (ledNumber (index_ led))]
    ∧ heartbeat_ s' = 5
    ∧ ledCount_ s' = ledCount_ s
    ∧ oscSent s' = oscSent s.
Proof.
  intros Hm Hidx Hled Hst. unfold handleLedMessage. rewrite Hm.
  destruct (decide _) as [|_]; [lia|].
  unfold getReference. rewrite (bool_decide_true (0 ≤ idx)) by lia. rewrite Hled.
  cbn [mbind option_bind]. rewrite Hst. cbn [mbind option_bind].
  eexists. split; [done|]. cbn. rewrite !list_insert_insert_eq.
  repeat split; try done.
  - intros p Hp. by rewrite list_lookup_insert_ne.
  - unfold ledFrame. cbn. by destruct (bool_decide (v1 = 0)).
Qed.

Lemma led_update_overwrites_target_only_led3 :
  let m := mkMsg "/led" [Int32 3; Int32 1; Int32 0; Int32 2] in
  let s := freshlyConnected in
  let led := freshLed 3 in
  (0 ≤ 3 < ledCount_ s ∧ leds_ s !! Z.to_nat 3 = Some led
   ∧ LedStates_of_int 2 = Some Blink)
  ∧ ∃ s', handleLedMessage m s = Some s'
      ∧ leds_ s' = <[Z.to_nat 3 :=
                      mkLED (index_ led) (negb (bool_decide (1 = 0))) 0 Blink]> (leds_ s)
      ∧ (∀ p, p ≠ Z.to_nat 3 → leds_ s' !! p = leds_ s !! p)
      ∧ midiWritten s'
        = midiWritten s ++ [ccFrame (if bool_decide (1 = 0) then 107 else 106)
                              (ledNumber (index_ led))]
      ∧ heartbeat_ s' = 5
      ∧ ledCount_ s' = ledCount_ s
      ∧ oscSent s' = oscSent s.
Proof.
  split; [repeat split; (reflexivity || lia) |].
  apply (led_update_overwrites_target_only _ freshlyConnected 3 1 0 2 []
           Blink (freshLed 3)); [reflexivity | split; [lia | reflexivity] | reflexivity
                                | reflexivity].
Defined.

(** X4.  While [ledCount_] does not exceed the registry, an LED update
    of at least four arguments never reads outside the registry or the
    message: it is processed (or dropped) without fault, unless its
    fourth argument is an int32 outside the state enumeration 0..3. *)
Theorem led_update_complete_is_safe (m : OSCMessage) (s : App)
    (a0 a1 a2 a3 : OSCArgument) (extra : list OSCArgument) :
  arguments m = a0 :: a1 :: a2 :: a3 :: extra →
  sized s →
  (∀ v3, a3 = Int32 v3 → 0 ≤ v3 ≤ 3) →
  ∃ s', handleLedMessage m s = Some s'
    ∧ length (leds_ s') = length (leds_ s) ∧ ledCount_ s' = ledCount_ s.
Proof.
  intros Hm Hsized Hst. unfold handleLedMessage. rewrite Hm.
  destruct a0 as [idx| | |]; try (by exists s).
  destruct (decide _) as [|Hin]; [by exists s|].
  unfold sized in Hsized. unfold getReference.
  rewrite (bool_decide_true (0 ≤ idx)) by lia.
  destruct (lookup_lt_is_Some_2 (leds_ s) (Z.to_nat idx) ltac:(lia)) as [led ->].
  cbn [mbind option_bind].
  destruct a1 as [v1| | |]; try (by exists s).
  destruct a2 as [v2| | |];
    try (eexists; split; [done|]; cbn; by rewrite length_insert).
  destruct a3 as [v3| | |];
    try (eexists; split; [done|]; cbn; by rewrite !length_insert).
  assert (Hcode : ∃ st, LedStates_of_int v3 = Some st).
  { specialize (Hst v3 eq_refl).
    assert (Hc : v3 = 0 ∨ v3 = 1 ∨ v3 = 2 ∨ v3 = 3) by lia.
    destruct Hc as [-> | [-> | [-> | ->]]]; eexists; reflexivity. }
  destruct Hcode as [st ->]. cbn [mbind option_bind].
  eexists; split; [done|]; cbn; by rewrite !length_insert.
Qed.

Lemma led_update_complete_is_safe_string_timer :
  let m := mkMsg "/led" [Int32 3; Int32 1; OscString "x"; Int32 2] in
  let s := freshlyConnected in
  (sized s ∧ (∀ v3, Int32 2 = Int32 v3 → 0 ≤ v3 ≤ 3))
  ∧ ∃ s', handleLedMessage m s = Some s'
      ∧ length (leds_ s') = length (leds_ s) ∧ ledCount_ s' = ledCount_ s.
Proof.
  assert (Hsized : sized freshlyConnected) by (unfold sized; vm_compute; discriminate).
  assert (Hcode : ∀ v3, Int32 2 = Int32 v3 → 0 ≤ v3 ≤ 3)
    by (intros v3 [= <-]; lia).
  split; [split; assumption |].
  apply (led_update_complete_is_safe _ freshlyConnected (Int32 3) (Int32 1)
           (OscString "x") (Int32 2) []); [reflexivity | assumption | assumption].
Defined.

(** X5.  An LED update that carries an index inside [0, ledCount_) and
    then one or two int32 arguments, or none, makes the handler read the
    argument after the last one: the behaviour is undefined. *)
Theorem led_update_truncated_reads_past_end (m : OSCMessage) (s : App)
    (idx : Z) (ints : list Z) :
  arguments m = Int32 idx :: (Int32 <$> ints) →
  0 ≤ idx < ledCount_ s → (length ints < 3)%nat →
  handleLedMessage m s = None.
Proof.
  intros Hm Hidx Hlen. unfold handleLedMessage. rewrite Hm.
  destruct (decide _) as [|_]; [lia|].
  destruct (getReference (leds_ s) idx) as [led|]; [|done].
  cbn [mbind option_bind].
  destruct ints as [|v1 [|v2 [|v3 ints]]]; cbn in *; try done. lia.
Qed.

Lemma led_update_truncated_reads_past_end_index_only :
  let m := mkMsg "/led" [Int32 3] in
  let s := freshlyConnected in
  (0 ≤ 3 < ledCount_ s ∧ (length (@nil Z) < 3)%nat)
  ∧ handleLedMessage m s = None.
Proof.
  split; [split; [split; [lia | reflexivity] | cbn; lia] |].
  apply (led_update_truncated_reads_past_end _ freshlyConnected 3 []);
    [reflexivity | split; [lia | reflexivity] | cbn; lia].
Defined.

(** ** Identity-probe responses, argument by argument *)

Lemma pingAckArgs_by_position (args : list OSCArgument) (s : App) :
  pingAckArgs 0 args s
  = (recordSession args s, bool_decide (length args ≤ 4)%nat).
Proof.
  unfold recordSession, int32At, stringAt.
  destruct args as [|a0 [|a1 [|a2 [|a3 [|a4 rest]]]]];
    [ | destruct a0 | destruct a0, a1 | destruct a0, a1, a2
      | destruct a0, a1, a2, a3 | destruct a0, a1, a2, a3 ];
    cbn; rewrite ?bool_decide_true by lia; rewrite ?bool_decide_false by lia;
    f_equal; by destruct s.
Qed.

(** X6.  [handlePingAckMessage] takes host, version, LED count and engine
    id from the argument positions 0..3; an argument that is missing or
    has the wrong type leaves the field at its previous value.  With at
    most four arguments the registry is then rebuilt when the recorded
    count is positive and the countdown is set to 5; with five or more
    the fields are recorded but the handler returns before the rebuild
    and the countdown reset. *)
Theorem pingAck_reads_fields_by_position (m : OSCMessage) (s : App) :
  arguments m ≠ [] →
  let s1 := recordSession (arguments m) s in
  handlePingAckMessage m s
  = if bool_decide (length (arguments m) ≤ 4)%nat
    then set_heartbeat 5 (if decide (0 < ledCount_ s1) then rebuildLeds s1 else s1)
    else s1.
Proof.
  intros Hne. unfold handlePingAckMessage.
  destruct (arguments m) as [|a rest] eqn:Hargs; [done|].
  rewrite pingAckArgs_by_position. cbv zeta.
  by destruct (bool_decide _).
Qed.

Lemma pingAck_reads_fields_by_position_mistyped_count :
  let m := mkMsg "/pingack" [OscString "host"; OscString "1.0"; OscString "3"; Int32 8] in
  let s := freshlyConnected in
  arguments m ≠ []
  ∧ let s1 := recordSession (arguments m) s in
    handlePingAckMessage m s
    = if bool_decide (length (arguments m) ≤ 4)%nat
      then set_heartbeat 5 (if decide (0 < ledCount_ s1) then rebuildLeds s1 else s1)
      else s1.
Proof.
  split; [discriminate |].
  apply (pingAck_reads_fields_by_position
           (mkMsg "/pingack" [OscString "host"; OscString "1.0"; OscString "3"; Int32 8])
           freshlyConnected); discriminate.
Defined.

Lemma recordSession_fields (args : list OSCArgument) (s : App) :
  let s1 := recordSession args s in
  leds_ s1 = leds_ s ∧ heartbeat_ s1 = heartbeat_ s
  ∧ oscSent s1 = oscSent s ∧ midiWritten s1 = midiWritten s
  ∧ currentReceivePort_ s1 = currentReceivePort_ s
  ∧ ledCount_ s1 = int32At args 2 (ledCount_ s)
  ∧ engineId_ s1 = int32At args 3 (engineId_ s).
Proof. done. Qed.

Lemma fresh_indexed (K : Z) : indexed (freshLed <$> seqZ 0 K).
Proof.
  unfold indexed. rewrite <- list_fmap_compose, length_fmap, length_seqZ.
  unfold seqZ. rewrite <- list_fmap_compose.
  apply list_fmap_ext. intros i k _. cbn. lia.
Qed.



(** X8.  A response of one to four arguments whose recorded LED count is
    zero or negative keeps the registry but stores that count: from then
    on no LED update is accepted, every one is returned unprocessed. *)
Theorem pingAck_without_leds_blocks_updates (m : OSCMessage) (s : App) :
  arguments m ≠ [] → (length (arguments m) ≤ 4)%nat →
  int32At (arguments m) 2 (ledCount_ s) ≤ 0 →
  let s' := handlePingAckMessage m s in
  leds_ s' = leds_ s
  ∧ ledCount_ s' = int32At (arguments m) 2 (ledCount_ s)
  ∧ heartbeat_ s' = 5
  ∧ ∀ upd, handleLedMessage upd s' = Some s'.
Proof.
  intros Hne Hlen HK s'. subst s'.
  rewrite (pingAck_reads_fields_by_position m s Hne). cbv zeta.
  rewrite bool_decide_true by done.
  set (s1 := recordSession (arguments m) s).
  assert (Hc1 : ledCount_ s1 = int32At (arguments m) 2 (ledCount_ s)) by done.
  destruct (decide (0 < ledCount_ s1)) as [|_]; [lia|].
  split; [done|]. split; [done|]. split; [done|].
  intros upd. unfold handleLedMessage.
  destruct (arguments upd) as [|[idx| | |] rest]; try done.
  destruct (decide _) as [|Hn]; [done|]. cbn in Hn. lia.
Qed.

Lemma pingAck_without_leds_blocks_updates_zero :
  let m := mkMsg "/pingack" (sessionArgs "host" "1.0" 0 8) in
  let s := blinkingApp in
  (arguments m ≠ [] ∧ (length (arguments m) ≤ 4)%nat
   ∧ int32At (arguments m) 2 (ledCount_ s) ≤ 0)
  ∧ let s' := handlePingAckMessage m s in
    leds_ s' = leds_ s
    ∧ ledCount_ s' = int32At (arguments m) 2 (ledCount_ s)
    ∧ heartbeat_ s' = 5
    ∧ ∀ upd, handleLedMessage upd s' = Some s'.
Proof.
  split; [split; [discriminate | split; [cbn; lia | cbn; lia]] |].
  apply (pingAck_without_leds_blocks_updates
           (mkMsg "/pingack" (sessionArgs "host" "1.0" 0 8)) blinkingApp);
    [discriminate | cbn; lia | cbn; lia].
Defined.

(** X9.  A response with five or more arguments stores the count of its
    third argument without rebuilding the registry.  When that count
    exceeds the registry, a complete LED update for an index between the
    registry size and the count is accepted by the range test and then
    addresses an element outside the array: the behaviour is undefined. *)
Theorem pingAck_surplus_argument_unguards_updates (m upd : OSCMessage) (s : App)
    (K idx v1 v2 v3 : Z) (extra : list OSCArgument) :
  (5 ≤ length (arguments m))%nat →
  arguments m !! 2%nat = Some (Int32 K) →
  arguments upd = Int32 idx :: Int32 v1 :: Int32 v2 :: Int32 v3 :: extra →
  Z.of_nat (length (leds_ s)) ≤ idx < K →
  let s' := handlePingAckMessage m s in
  leds_ s' = leds_ s ∧ ledCount_ s' = K ∧ heartbeat_ s' = heartbeat_ s
  ∧ ¬ sized s'
  ∧ handleLedMessage upd s' = None.
Proof.
  intros Hlen HK Hupd Hidx s'. subst s'.
  assert (Hne : arguments m ≠ []) by (destruct (arguments m); [cbn in Hlen; lia | done]).
  rewrite (pingAck_reads_fields_by_position m s Hne). cbv zeta.
  rewrite bool_decide_false by lia.
  set (s1 := recordSession (arguments m) s).
  assert (Hc1 : ledCount_ s1 = K) by (cbn; unfold int32At; by rewrite HK).
  assert (Hl1 : leds_ s1 = leds_ s) by done.
  split; [done|]. split; [done|]. split; [done|]. split.
  - unfold sized. rewrite Hc1, Hl1. lia.
  - unfold handleLedMessage. rewrite Hupd, Hc1.
    destruct (decide _) as [|_]; [lia|].
    unfold getReference. rewrite (bool_decide_true (0 ≤ idx)) by lia.
    rewrite Hl1, (lookup_ge_None_2 (leds_ s) (Z.to_nat idx)) by lia. done.
Qed.

Lemma pingAck_surplus_argument_unguards_updates_led_50 :
  let m := mkMsg "/pingack" [OscString "host"; OscString "1.0"; Int32 100; Int32 8;
                             Int32 0] in
  let upd := mkMsg "/led" [Int32 50; Int32 1; Int32 0; Int32 1] in
  let s := freshlyConnected in
  ((5 ≤ length (arguments m))%nat ∧ arguments m !! 2%nat = Some (Int32 100)
   ∧ Z.of_nat (length (leds_ s)) ≤ 50 < 100)
  ∧ let s' := handlePingAckMessage m s in
    leds_ s' = leds_ s ∧ ledCount_ s' = 100 ∧ heartbeat_ s' = heartbeat_ s
    ∧ ¬ sized s'
    ∧ handleLedMessage upd s' = None.
Proof.
  assert (Hidx : Z.of_nat (length (leds_ freshlyConnected)) ≤ 50 < 100)
    by (split; [vm_compute; discriminate | reflexivity]).
  split; [split; [cbn; lia | split; [reflexivity | exact Hidx]] |].
  apply (pingAck_surplus_argument_unguards_updates
           (mkMsg "/pingack" [OscString "host"; OscString "1.0"; Int32 100; Int32 8;
                              Int32 0])
           (mkMsg "/led" [Int32 50; Int32 1; Int32 0; Int32 1])
           freshlyConnected 100 50 1 0 1 []);
    [cbn; lia | reflexivity | reflexivity | exact Hidx].
Defined.

(** ** Heartbeats, argument by argument *)

Lemma heartbeatArgs_by_position (args : list OSCArgument) (s : App) (n u : Z) :
  heartbeatArgs 0 args s n u
  = (recordHost args s, int32At args 2 n, int32At args 3 u).
Proof.
  unfold recordHost, int32At, stringAt.
  destruct args as [|a0 [|a1 [|a2 [|a3 rest]]]];
    [ | destruct a0 | destruct a0, a1 | destruct a0, a1, a2
      | destruct a0, a1, a2, a3 ];
    cbn [heartbeatArgs]; rewrite ?heartbeatArgs_surplus by lia; cbn;
    f_equal; f_equal; by destruct s.
Qed.

Lemma heartbeat_form (m : OSCMessage) (s : App) :
  arguments m ≠ [] →
  let s1 := recordHost (arguments m) s in
  let N := int32At (arguments m) 2 0 in
  let uid := int32At (arguments m) 3 (engineId_ s) in
  let s2 :=
    if decide (uid ≠ engineId_ s) then
      if decide (0 < N) then rebuildLeds (set_ledCount N s1) else s1
    else if decide (ledCount_ s ≠ N)
         then set_ledCount N
                (appendLoop (Z.to_nat (N - ledCount_ s)) (ledCount_ s) s1)
         else s1 in
  handleHeartbeatMessage m s
  = set_heartbeat 5
      (set_heartbeatOn (negb (heartbeatOn_ s2))
         (midiWrite [ccFrame (if heartbeatOn_ s2 then 107 else 106) 23] s2)).
Proof.
  intros Hne. unfold handleHeartbeatMessage.
  destruct (arguments m) as [|a rest] eqn:Hargs; [done|].
  by rewrite heartbeatArgs_by_position.
Qed.

Lemma heartbeat_resync_fields (m : OSCMessage) (s : App) :
  let s1 := recordHost (arguments m) s in
  let N := int32At (arguments m) 2 0 in
  let uid := int32At (arguments m) 3 (engineId_ s) in
  let s2 :=
    if decide (uid ≠ engineId_ s) then
      if decide (0 < N) then rebuildLeds (set_ledCount N s1) else s1
    else if decide (ledCount_ s ≠ N)
         then set_ledCount N
                (appendLoop (Z.to_nat (N - ledCount_ s)) (ledCount_ s) s1)
         else s1 in
  engineId_ s2 = engineId_ s ∧ heartbeatOn_ s2 = heartbeatOn_ s
  ∧ currentReceivePort_ s2 = currentReceivePort_ s
  ∧ currentSendPort_ s2 = currentSendPort_ s.
Proof.
  cbv zeta.
  destruct (decide (_ ≠ engineId_ s)).
  - destruct (decide (0 < _)); [|done].
    destruct (rebuildLeds_fields
                (set_ledCount (int32At (arguments m) 2 0)
                   (recordHost (arguments m) s)))
      as (He & _ & _ & _ & _ & Hon & Hr & Hs).
    cbv zeta in He, Hon, Hr, Hs. by rewrite He, Hon, Hr, Hs.
  - destruct (decide (ledCount_ s ≠ _)); [|done].
    destruct (appendLoop_fields
                (Z.to_nat (int32At (arguments m) 2 0 - ledCount_ s)) (ledCount_ s)
                (recordHost (arguments m) s))
      as (He & _ & _ & _ & _ & Hon & Hr & Hs & _).
    cbv zeta in He, Hon, Hr, Hs. cbn. by rewrite He, Hon, Hr, Hs.
Qed.

(** X10.  Every heartbeat with at least one argument, whatever its
    arguments are, toggles the alive flag, writes the alive frame (CC 106
    or 107 on controller 23, alternating) as the last frame, sets the
    countdown to 5, and leaves the tracked engine id and both ports as
    they were. *)
Theorem heartbeat_alive_indicator (m : OSCMessage) (s : App) :
  arguments m ≠ [] →
  let s' := handleHeartbeatMessage m s in
  heartbeatOn_ s' = negb (heartbeatOn_ s)
  ∧ (∃ fs, midiWritten s' = fs ++ [ccFrame (if heartbeatOn_ s then 107 else 106) 23])
  ∧ heartbeat_ s' = 5
  ∧ engineId_ s' = engineId_ s
  ∧ currentReceivePort_ s' = currentReceivePort_ s
  ∧ currentSendPort_ s' = currentSendPort_ s.
Proof.
  intros Hne s'. subst s'. rewrite (heartbeat_form m s Hne). cbv zeta.
  destruct (heartbeat_resync_fields m s) as (He & Hon & Hr & Hs).
  cbv zeta in He, Hon, Hr, Hs. cbn. rewrite He, Hon, Hr, Hs.
  repeat split; try done. by eexists.
Qed.

Lemma heartbeat_alive_indicator_bare :
  let m := mkMsg "/heartbeat" [Float32 0] in
  let s := blinkingApp in
  arguments m ≠ []
  ∧ let s' := handleHeartbeatMessage m s in
    heartbeatOn_ s' = negb (heartbeatOn_ s)
    ∧ (∃ fs, midiWritten s' = fs ++ [ccFrame (if heartbeatOn_ s then 107 else 106) 23])
    ∧ heartbeat_ s' = 5
    ∧ engineId_ s' = engineId_ s
    ∧ currentReceivePort_ s' = currentReceivePort_ s
    ∧ currentSendPort_ s' = currentSendPort_ s.
Proof.
  split; [discriminate |].
  apply (heartbeat_alive_indicator (mkMsg "/heartbeat" [Float32 0]) blinkingApp).
  discriminate.
Defined.

(** X11.  No heartbeat can make [ledCount_] exceed the registry: if the
    count was within the registry before, it is so afterwards, for every
    message. *)
Theorem heartbeat_keeps_sized (m : OSCMessage) (s : App) :
  sized s → sized (handleHeartbeatMessage m s).
Proof.
  intros Hsized.
  destruct (decide (arguments m = [])) as [Hnil|Hne].
  { unfold handleHeartbeatMessage. by rewrite Hnil. }
  rewrite (heartbeat_form m s Hne). cbv zeta. unfold sized in *. cbn.
  set (N := int32At (arguments m) 2 0).
  destruct (decide (_ ≠ engineId_ s)).
  - destruct (decide (0 < N)); [|done].
    destruct (rebuildLeds_fields (set_ledCount N (recordHost (arguments m) s)))
      as (_ & Hc & _). cbv zeta in Hc.
    rewrite Hc, rebuildLeds_leds. cbn. rewrite length_fmap, length_seqZ. lia.
  - destruct (decide (ledCount_ s ≠ N)); [|done].
    cbn. rewrite appendLoop_leds. cbn.
    rewrite length_app, length_fmap, length_seqZ. lia.
Qed.

Lemma heartbeat_keeps_sized_shrink :
  let m := mkMsg "/heartbeat" (sessionArgs "host" "1.0" 4 7) in
  let s := blinkingApp in
  sized s ∧ sized (handleHeartbeatMessage m s).
Proof.
  assert (Hsized : sized blinkingApp) by (unfold sized; vm_compute; discriminate).
  split; [exact Hsized |].
  apply (heartbeat_keeps_sized _ blinkingApp). exact Hsized.
Defined.

Lemma indexed_snoc (l : list LED) (led : LED) :
  indexed l → index_ led = Z.of_nat (length l) → indexed (l ++ [led]).
Proof.
  unfold indexed. intros Hl Hled.
  rewrite fmap_app, length_app, Hl. cbn. rewrite Nat.add_1_r, seq_S, fmap_app.
  cbn. by rewrite Hled.
Qed.

Lemma indexed_app_fresh (n : nat) : ∀ (l : list LED),
  indexed l →
  indexed (l ++ (freshLed <$> seqZ (Z.of_nat (length l)) (Z.of_nat n))).
Proof.
  induction n as [|n IH]; intros l Hl.
  - cbn. by rewrite app_nil_r.
  - rewrite seqZ_S, fmap_app, app_assoc. cbn. apply indexed_snoc; [by apply IH|].
    cbn. rewrite length_app, length_fmap, length_seqZ. lia.
Qed.

(** X12.  A heartbeat keeps a registry that is indexed by position with
    [ledCount_] as its size in that shape, unless it comes from the
    tracked engine and reports fewer LEDs than are tracked: a rebuild
    creates the LEDs [0 .. N-1], a growth appends the LEDs numbered from
    the old size on. *)
Theorem heartbeat_keeps_synced (m : OSCMessage) (s : App) :
  synced s →
  int32At (arguments m) 3 (engineId_ s) ≠ engineId_ s
  ∨ ledCount_ s ≤ int32At (arguments m) 2 0 →
  synced (handleHeartbeatMessage m s).
Proof.
  intros [Hix Hcount] Hcase.
  destruct (decide (arguments m = [])) as [Hnil|Hne].
  { unfold handleHeartbeatMessage. by rewrite Hnil. }
  rewrite (heartbeat_form m s Hne). cbv zeta. unfold synced. cbn.
  set (N := int32At (arguments m) 2 0) in *.
  destruct (decide (_ ≠ engineId_ s)) as [Hother|Hsame].
  - destruct (decide (0 < N)); [|done].
    destruct (rebuildLeds_fields (set_ledCount N (recordHost (arguments m) s)))
      as (_ & Hc & _). cbv zeta in Hc.
    rewrite Hc, rebuildLeds_leds. cbn. rewrite Z2Nat.id by lia.
    split; [apply fresh_indexed|]. rewrite length_fmap, length_seqZ. lia.
  - destruct Hcase as [|Hle]; [done|].
    destruct (decide (ledCount_ s ≠ N)); [|done].
    cbn. rewrite appendLoop_leds. cbn. rewrite Hcount. split.
    + by apply indexed_app_fresh.
    + rewrite length_app, length_fmap, length_seqZ. lia.
Qed.

Lemma heartbeat_keeps_synced_growth :
  let m := mkMsg "/heartbeat" (sessionArgs "host" "1.0" 12 7) in
  let s := blinkingApp in
  (synced s
   ∧ (int32At (arguments m) 3 (engineId_ s) ≠ engineId_ s
      ∨ ledCount_ s ≤ int32At (arguments m) 2 0))
  ∧ synced (handleHeartbeatMessage m s).
Proof.
  assert (Hsynced : synced blinkingApp) by (split; reflexivity).
  assert (Hcase : int32At (sessionArgs "host" "1.0" 12 7) 3 (engineId_ blinkingApp)
                  ≠ engineId_ blinkingApp
                  ∨ ledCount_ blinkingApp ≤ int32At (sessionArgs "host" "1.0" 12 7) 2 0)
    by (right; vm_compute; discriminate).
  split; [split; assumption |].
  apply (heartbeat_keeps_synced (mkMsg "/heartbeat" (sessionArgs "host" "1.0" 12 7))
           blinkingApp); assumption.
Defined.

(** X13.  A heartbeat that reports the tracked engine with the tracked
    LED count, or another engine with a count that is not positive, sends
    no OSC request and leaves registry and LED count alone: the alive
    frame is the only frame it writes. *)
Theorem heartbeat_without_resync (m : OSCMessage) (s : App) :
  arguments m ≠ [] →
  (int32At (arguments m) 3 (engineId_ s) = engineId_ s
   ∧ int32At (arguments m) 2 0 = ledCount_ s)
  ∨ (int32At (arguments m) 3 (engineId_ s) ≠ engineId_ s
     ∧ int32At (arguments m) 2 0 ≤ 0) →
  let s' := handleHeartbeatMessage m s in
  leds_ s' = leds_ s ∧ ledCount_ s' = ledCount_ s ∧ oscSent s' = oscSent s
  ∧ midiWritten s'
    = midiWritten s ++ [ccFrame (if heartbeatOn_ s then 107 else 106) 23].
Proof.
  intros Hne Hcase s'. subst s'. rewrite (heartbeat_form m s Hne). cbv zeta.
  destruct Hcase as [[Hid Hn]|[Hid Hn]].
  - destruct (decide (_ ≠ engineId_ s)); [done|].
    by destruct (decide (ledCount_ s ≠ _)).
  - destruct (decide (_ ≠ engineId_ s)); [|done].
    by destruct (decide (0 < _)); [lia|].
Qed.

Lemma heartbeat_without_resync_steady :
  let m := mkMsg "/heartbeat" (sessionArgs "host" "1.0" 10 7) in
  let s := blinkingApp in
  (arguments m ≠ []
   ∧ ((int32At (arguments m) 3 (engineId_ s) = engineId_ s
       ∧ int32At (arguments m) 2 0 = ledCount_ s)
      ∨ (int32At (arguments m) 3 (engineId_ s) ≠ engineId_ s
         ∧ int32At (arguments m) 2 0 ≤ 0)))
  ∧ let s' := handleHeartbeatMessage m s in
    leds_ s' = leds_ s ∧ ledCount_ s' = ledCount_ s ∧ oscSent s' = oscSent s
    ∧ midiWritten s'
      = midiWritten s ++ [ccFrame (if heartbeatOn_ s then 107 else 106) 23].
Proof.
  assert (Hcase : (int32At (sessionArgs "host" "1.0" 10 7) 3 (engineId_ blinkingApp)
                   = engineId_ blinkingApp
                   ∧ int32At (sessionArgs "host" "1.0" 10 7) 2 0 = ledCount_ blinkingApp)
                  ∨ (int32At (sessionArgs "host" "1.0" 10 7) 3 (engineId_ blinkingApp)
                     ≠ engineId_ blinkingApp
                     ∧ int32At (sessionArgs "host" "1.0" 10 7) 2 0 ≤ 0))
    by (left; split; reflexivity).
  split; [split; [discriminate | exact Hcase] |].
  apply (heartbeat_without_resync (mkMsg "/heartbeat" (sessionArgs "host" "1.0" 10 7))
           blinkingApp); [discriminate | exact Hcase].
Defined.

(** ** Ticks on any countdown *)

Lemma tryToConnectOsc_frame (e : Env) (s : App) :
  let s' := (tryToConnectOsc e s).2 in
  ledCount_ s' = ledCount_ s ∧ engineId_ s' = engineId_ s
  ∧ pinged_ s' = pinged_ s ∧ oscSendPort_ s' = oscSendPort_ s
  ∧ oscReceivePort_ s' = oscReceivePort_ s
  ∧ midiOutName_ s' = midiOutName_ s ∧ midiOut_ s' = midiOut_ s.
Proof.
  unfold tryToConnectOsc, connect.
  set (s1 := if decide (currentSendPort_ s < 0) then _ else _).
  assert (H1 : ledCount_ s1 = ledCount_ s ∧ engineId_ s1 = engineId_ s
               ∧ pinged_ s1 = pinged_ s ∧ oscSendPort_ s1 = oscSendPort_ s
               ∧ oscReceivePort_ s1 = oscReceivePort_ s
               ∧ midiOutName_ s1 = midiOutName_ s ∧ midiOut_ s1 = midiOut_ s)
    by (subst s1; destruct (decide _); [destruct (senderConnects e)|]; done).
  clearbody s1.
  set (s2 := if decide (currentReceivePort_ s1 < 0) then _ else _).
  assert (H2 : ledCount_ s2 = ledCount_ s1 ∧ engineId_ s2 = engineId_ s1
               ∧ pinged_ s2 = pinged_ s1 ∧ oscSendPort_ s2 = oscSendPort_ s1
               ∧ oscReceivePort_ s2 = oscReceivePort_ s1
               ∧ midiOutName_ s2 = midiOutName_ s1 ∧ midiOut_ s2 = midiOut_ s1).
  { subst s2. destruct (decide _); [|done].
    destruct (negb _); [done|]. by destruct (receiverConnects e). }
  clearbody s2.
  destruct H1 as (? & ? & ? & ? & ? & ? & ?), H2 as (? & ? & ? & ? & ? & ? & ?).
  destruct (decide _); cbn [snd]; [destruct (pinged_ s2) eqn:?|]; cbn;
    repeat split; congruence.
Qed.

Lemma checkHeartbeat_frame (e : Env) (s : App) :
  let s' := checkHeartbeat e s in
  leds_ s' = leds_ s ∧ midiWritten s' = midiWritten s
  ∧ ledCount_ s' = ledCount_ s ∧ engineId_ s' = engineId_ s
  ∧ pinged_ s' = pinged_ s ∧ oscSendPort_ s' = oscSendPort_ s
  ∧ oscReceivePort_ s' = oscReceivePort_ s
  ∧ midiOutName_ s' = midiOutName_ s ∧ midiOut_ s' = midiOut_ s.
Proof.
  unfold checkHeartbeat. cbv zeta.
  destruct (decide (heartbeat_ s = 0)); [done|].
  destruct (decide (heartbeat_ s < -5)); [|done].
  set (s1 := set_currentSendPort (-1) (set_currentReceivePort (-1) s)).
  pose proof (tryToConnectOsc_frame e s1) as (? & ? & ? & ? & ? & ? & ?).
  pose proof (tryToConnectOsc_fields e s1) as (? & ? & _).
  destruct (tryToConnectOsc e s1) as [[|] s2]; cbn in *; repeat split; congruence.
Qed.

Lemma pedalsDark_shape (first n : nat) (l : list LED) :
  index_ <$> pedalsDark first n l = index_ <$> l
  ∧ state_ <$> pedalsDark first n l = state_ <$> l
  ∧ timer_ <$> pedalsDark first n l = timer_ <$> l
  ∧ length (pedalsDark first n l) = length l.
Proof.
  unfold pedalsDark. rewrite length_imap.
  repeat split; try done; apply list_eq; intros p;
    rewrite !list_lookup_fmap, list_lookup_imap;
    destruct (l !! p); cbn; try done; by destruct (decide _).
Qed.

Lemma openMidiOut_spec (e : Env) (s : App) :
  (opensMidi e s = true → (10 ≤ length (leds_ s))%nat) →
  openMidiOut e s
  = Some (if opensMidi e s
          then midiWrite (pedalsDarkFrames 0 10)
                 (set_leds (pedalsDark 0 10 (leds_ s)) (set_midiOut true s))
          else s).
Proof.
  intros Hlen. unfold openMidiOut, opensMidi in *.
  destruct (isNotEmpty (midiOutName_ s) && negb (midiOut_ s)); cbn [andb] in *;
    [|done].
  destruct (midiOpens e); [|done].
  change (Z.to_nat NUM_LED_PEDALS) with 10%nat.
  change 0 with (Z.of_nat 0) at 1.
  by rewrite pedalsOff_spec by (cbn; apply Hlen; done).
Qed.

Lemma blinkStep_fmap_shape (l : list LED) :
  index_ <$> (blinkStep <$> l) = index_ <$> l
  ∧ state_ <$> (blinkStep <$> l) = state_ <$> l.
Proof.
  rewrite <- !list_fmap_compose.
  split; apply list_fmap_ext; intros _ led _; cbn;
    [apply blinkStep_index | apply blinkStep_state].
Qed.

(** X14.  On a registry indexed by position a tick never addresses an LED
    outside the array, whatever the ports, the countdown and the answers
    of the operating system are (when it opens the MIDI device it
    needs the ten pedal LEDs).  It keeps the registry indexed, of the
    same size and every LED in its state, and it never writes
    [ledCount_], [engineId_], [pinged_], the configured ports or the
    device name; the MIDI handle is open afterwards exactly when it was
    open before or this tick opened it. *)
Theorem tick_safe_on_indexed_registry (e : Env) (s : App) :
  indexed (leds_ s) →
  (opensMidi e s = true → (10 ≤ length (leds_ s))%nat) →
  ∃ s', timerCallback e s = Some s'
    ∧ indexed (leds_ s')
    ∧ length (leds_ s') = length (leds_ s)
    ∧ state_ <$> leds_ s' = state_ <$> leds_ s
    ∧ ledCount_ s' = ledCount_ s ∧ engineId_ s' = engineId_ s
    ∧ pinged_ s' = pinged_ s
    ∧ oscSendPort_ s' = oscSendPort_ s ∧ oscReceivePort_ s' = oscReceivePort_ s
    ∧ midiOutName_ s' = midiOutName_ s
    ∧ midiOut_ s' = midiOut_ s || opensMidi e s.
Proof.
  intros Hix Hlen. unfold timerCallback.
  rewrite (openMidiOut_spec e s Hlen). cbn [mbind option_bind].
  set (s0 := if opensMidi e s then _ else s).
  assert (H0 : index_ <$> leds_ s0 = index_ <$> leds_ s
               ∧ state_ <$> leds_ s0 = state_ <$> leds_ s
               ∧ length (leds_ s0) = length (leds_ s)
               ∧ ledCount_ s0 = ledCount_ s ∧ engineId_ s0 = engineId_ s
               ∧ pinged_ s0 = pinged_ s ∧ oscSendPort_ s0 = oscSendPort_ s
               ∧ oscReceivePort_ s0 = oscReceivePort_ s
               ∧ midiOutName_ s0 = midiOutName_ s
               ∧ midiOut_ s0 = midiOut_ s || opensMidi e s).
  { subst s0. destruct (opensMidi e s); [|by rewrite orb_false_r]. cbn.
    destruct (pedalsDark_shape 0 10 (leds_ s)) as (? & ? & _ & ?).
    by rewrite orb_true_r. }
  clearbody s0.
  destruct H0 as (Hi0 & Hst0 & Hl0 & Hc0 & He0 & Hp0 & Hsp0 & Hrp0 & Hn0 & Hm0).
  assert (Hix0 : indexed (leds_ s0)) by (unfold indexed in *; by rewrite Hi0, Hl0).
  destruct (decide _) as [Hdown|Hup].
  - pose proof (tryToConnectOsc_frame e s0) as (? & ? & ? & ? & ? & ? & ?).
    pose proof (tryToConnectOsc_fields e s0) as (Hl1 & _).
    destruct (tryToConnectOsc e s0) as [[|] s1]; cbn in *;
      eexists; (split; [done|]); cbn; rewrite ?Hl1;
      repeat split; try done; congruence.
  - pose proof (checkHeartbeat_frame e s0) as (Hl1 & _ & ? & ? & ? & ? & ? & ? & ?).
    cbv zeta in *.
    rewrite blinkLeds_indexed by (by rewrite Hl1).
    eexists. split; [done|]. cbn. rewrite Hl1.
    destruct (blinkStep_fmap_shape (leds_ s0)) as (Hbi & Hbs).
    split; [by apply indexed_blinkStep|]. rewrite length_fmap, Hbs.
    repeat split; try done; congruence.
Qed.

Lemma tick_safe_on_indexed_registry_teardown :
  let s := set_heartbeat (-6) blinkingApp in
  let e := mkEnv true false false in
  (indexed (leds_ s) ∧ (opensMidi e s = true → (10 ≤ length (leds_ s))%nat))
  ∧ ∃ s', timerCallback e s = Some s'
      ∧ indexed (leds_ s')
      ∧ length (leds_ s') = length (leds_ s)
      ∧ state_ <$> leds_ s' = state_ <$> leds_ s
      ∧ ledCount_ s' = ledCount_ s ∧ engineId_ s' = engineId_ s
      ∧ pinged_ s' = pinged_ s
      ∧ oscSendPort_ s' = oscSendPort_ s ∧ oscReceivePort_ s' = oscReceivePort_ s
      ∧ midiOutName_ s' = midiOutName_ s
      ∧ midiOut_ s' = midiOut_ s || opensMidi e s.
Proof.
  assert (Hix : indexed (leds_ (set_heartbeat (-6) blinkingApp))) by reflexivity.
  assert (Hlen : opensMidi (mkEnv true false false) (set_heartbeat (-6) blinkingApp)
                 = true
                 → (10 ≤ length (leds_ (set_heartbeat (-6) blinkingApp)))%nat)
    by (intros _; vm_compute; lia).
  split; [split; assumption |].
  apply (tick_safe_on_indexed_registry (mkEnv true false false)
           (set_heartbeat (-6) blinkingApp)); assumption.
Defined.

(** ** Reconnecting *)

(** X15.  A call of [tryToConnectOsc] never changes a port that is bound
    (not negative); an unbound send port becomes the configured one when
    [oscSender.connect] succeeds; an unbound receive port becomes the
    configured one only if that is a valid port (1..65535) and
    [oscReceiver.connect] succeeds.  The call reports success exactly
    when both ports are positive afterwards, and it sends the identity
    probe exactly when it reports success and [pinged_] is false. *)
Theorem tryToConnectOsc_binds_unbound_ports_only (e : Env) (s : App) :
  let ok := (tryToConnectOsc e s).1 in
  let s' := (tryToConnectOsc e s).2 in
  currentSendPort_ s'
  = (if decide (currentSendPort_ s < 0)
     then if senderConnects e then oscSendPort_ s else currentSendPort_ s
     else currentSendPort_ s)
  ∧ currentReceivePort_ s'
    = (if decide (currentReceivePort_ s < 0)
       then if isValidOscPort (oscReceivePort_ s) && receiverConnects e
            then oscReceivePort_ s else currentReceivePort_ s
       else currentReceivePort_ s)
  ∧ (ok = true ↔ 0 < currentSendPort_ s' ∧ 0 < currentReceivePort_ s')
  ∧ oscSent s' = oscSent s ++ (if ok && negb (pinged_ s) then [identityProbe s'] else []).
Proof.
  unfold tryToConnectOsc, connect. cbv zeta.
  destruct (decide (currentSendPort_ s < 0)), (senderConnects e);
    cbn [currentReceivePort_ set_currentSendPort oscReceivePort_];
    destruct (decide (currentReceivePort_ s < 0)),
      (isValidOscPort (oscReceivePort_ s)), (receiverConnects e);
    cbn [negb andb];
    (destruct (decide (0 < _ ∧ 0 < _)) as [Hb|Hb]; cbn in Hb |- *;
     [ destruct (pinged_ s); cbn; rewrite ?app_nil_r
     | rewrite ?app_nil_r ];
     repeat split; intros; try done; tauto).
Qed.

(** X16.  The tick that finds both ports bound and the countdown below
    -5 marks both ports unbound and reconnects at once: afterwards each
    port is the configured one if its connect succeeded (the receive port
    also has to be valid) and -1 otherwise; the countdown is 5 if both
    ports came up positive and is left below -5 otherwise.  The blink
    loop runs on this tick as on any tick with the link up. *)
Theorem teardown_tick_reconnects_at_once (e : Env) (s : App) :
  ¬ linkDown s → heartbeat_ s < -5 → midiSettled s → indexed (leds_ s) →
  ∃ s', timerCallback e s = Some s'
    ∧ leds_ s' = blinkStep <$> leds_ s
    ∧ currentSendPort_ s' = (if senderConnects e then oscSendPort_ s else -1)
    ∧ currentReceivePort_ s'
      = (if isValidOscPort (oscReceivePort_ s) && receiverConnects e
         then oscReceivePort_ s else -1)
    ∧ heartbeat_ s'
      = (if decide (0 < currentSendPort_ s' ∧ 0 < currentReceivePort_ s')
         then 5 else heartbeat_ s).
Proof.
  intros Hup Hhb Hmidi Hix. unfold timerCallback.
  rewrite (openMidiOut_settled e s Hmidi). cbn [mbind option_bind].
  destruct (decide _) as [|_]; [done|].
  pose proof (checkHeartbeat_frame e s) as (Hl & _). cbv zeta in Hl.
  rewrite blinkLeds_indexed by (by rewrite Hl).
  eexists. split; [done|]. cbn. rewrite Hl. split; [done|].
  unfold checkHeartbeat.
  destruct (decide (heartbeat_ s = 0)); [lia|].
  destruct (decide (heartbeat_ s < -5)); [|lia].
  set (s1 := set_currentSendPort (-1) (set_currentReceivePort (-1) s)).
  pose proof (tryToConnectOsc_binds_unbound_ports_only e s1) as (Hs & Hr & Hok & _).
  pose proof (tryToConnectOsc_fields e s1) as (_ & _ & Hh & _).
  cbv zeta in Hs, Hr, Hok, Hh.
  destruct (tryToConnectOsc e s1) as [ok s2]. cbn [fst snd] in *.
  cbn in Hs, Hr, Hh.
  assert (Hs2 : currentSendPort_ s2 = (if senderConnects e then oscSendPort_ s else -1))
    by (rewrite Hs; by destruct (senderConnects e)).
  assert (Hr2 : currentReceivePort_ s2
                = (if isValidOscPort (oscReceivePort_ s) && receiverConnects e
                   then oscReceivePort_ s else -1))
    by (rewrite Hr; by destruct (_ && _)).
  destruct ok; cbn.
  - rewrite <- Hs2, <- Hr2. repeat split; try done.
    destruct (decide (0 < currentSendPort_ s2 ∧ 0 < currentReceivePort_ s2))
      as [|Hn]; [done|].
    exfalso. apply Hn. by apply Hok.
  - rewrite <- Hs2, <- Hr2. repeat split; try done.
    destruct (decide (0 < currentSendPort_ s2 ∧ 0 < currentReceivePort_ s2))
      as [Hb|]; [|done].
    apply Hok in Hb. done.
Qed.

Lemma teardown_tick_reconnects_at_once_receiver_fails :
  let s := set_heartbeat (-6) blinkingApp in
  let e := mkEnv false true false in
  (¬ linkDown s ∧ heartbeat_ s < -5 ∧ midiSettled s ∧ indexed (leds_ s))
  ∧ ∃ s', timerCallback e s = Some s'
      ∧ leds_ s' = blinkStep <$> leds_ s
      ∧ currentSendPort_ s' = (if senderConnects e then oscSendPort_ s else -1)
      ∧ currentReceivePort_ s'
        = (if isValidOscPort (oscReceivePort_ s) && receiverConnects e
           then oscReceivePort_ s else -1)
      ∧ heartbeat_ s'
        = (if decide (0 < currentSendPort_ s' ∧ 0 < currentReceivePort_ s')
           then 5 else heartbeat_ s).
Proof.
  assert (Hup : ¬ linkDown (set_heartbeat (-6) blinkingApp))
    by (vm_compute; intros [H|H]; discriminate H).
  split; [repeat split; (assumption || reflexivity) |].
  apply (teardown_tick_reconnects_at_once (mkEnv false true false)
           (set_heartbeat (-6) blinkingApp)); (assumption || reflexivity).
Defined.

Lemma timerCallback_counting (e : Env) (s : App) :
  ¬ linkDown s → midiSettled s → indexed (leds_ s) →
  heartbeat_ s ≠ 0 → -5 ≤ heartbeat_ s →
  timerCallback e s
  = Some (midiWrite (mjoin (blinkFrames <$> leds_ s))
            (set_leds (blinkStep <$> leds_ s)
               (set_heartbeat (heartbeat_ s - 1) s))).
Proof.
  intros Hup Hmidi Hix Hne Hhb. unfold timerCallback.
  rewrite (openMidiOut_settled e s Hmidi). cbn [mbind option_bind].
  unfold linkDown in Hup. destruct (decide _) as [|_]; [done|].
  unfold checkHeartbeat.
  destruct (decide (heartbeat_ s = 0)); [done|].
  destruct (decide (heartbeat_ s < -5)); [lia|].
  by rewrite blinkLeds_indexed.
Qed.

(** X17.  A countdown that is negative but not below -5 is decremented by
    every tick without any probe: after [n] ticks, as long as that does
    not pass -6, it is [n] lower, both ports are still bound and nothing
    was sent.  (The tick after -6 is the teardown tick.) *)
Theorem negative_countdown_runs_down (es : list Env) : ∀ (s : App),
  ¬ linkDown s → midiSettled s → indexed (leds_ s) →
  heartbeat_ s < 0 → -6 ≤ heartbeat_ s - Z.of_nat (length es) →
  ∃ s', runTicks es s = Some s'
    ∧ heartbeat_ s' = heartbeat_ s - Z.of_nat (length es)
    ∧ oscSent s' = oscSent s
    ∧ currentReceivePort_ s' = currentReceivePort_ s
    ∧ currentSendPort_ s' = currentSendPort_ s
    ∧ leds_ s' = Nat.iter (length es) blinkStep <$> leds_ s.
Proof.
  induction es as [|e es IH]; intros s Hup Hmidi Hix Hneg Hlow.
  - exists s. cbn. rewrite list_fmap_id. repeat split; try done. lia.
  - cbn [length] in Hlow. cbn [runTicks].
    rewrite (timerCallback_counting e s Hup Hmidi Hix) by lia.
    cbn [mbind option_bind].
    match goal with |- context [runTicks es ?t] => set (s1 := t) end.
    assert (Hup1 : ¬ linkDown s1) by done.
    assert (Hmidi1 : midiSettled s1) by done.
    assert (Hix1 : indexed (leds_ s1)) by (by apply indexed_blinkStep).
    destruct (IH s1 Hup1 Hmidi1 Hix1) as (s' & Hrun & Hh & Ho & Hr & Hs & Hl);
      [cbn; lia | cbn; lia |].
    exists s'. rewrite Hrun, Hh, Ho, Hr, Hs, Hl. cbn.
    repeat split; try done; [lia|].
    rewrite <- list_fmap_compose. apply list_fmap_ext. intros _ led _.
    cbn. by rewrite <- Nat.iter_succ_r.
Qed.

Lemma negative_countdown_runs_down_from_minus_2 :
  let s := set_heartbeat (-2) blinkingApp in
  let es := replicate 4 quietEnv in
  (¬ linkDown s ∧ midiSettled s ∧ indexed (leds_ s) ∧ heartbeat_ s < 0
   ∧ -6 ≤ heartbeat_ s - Z.of_nat (length es))
  ∧ ∃ s', runTicks es s = Some s'
      ∧ heartbeat_ s' = heartbeat_ s - Z.of_nat (length es)
      ∧ oscSent s' = oscSent s
      ∧ currentReceivePort_ s' = currentReceivePort_ s
      ∧ currentSendPort_ s' = currentSendPort_ s
      ∧ leds_ s' = Nat.iter (length es) blinkStep <$> leds_ s.
Proof.
  assert (Hup : ¬ linkDown (set_heartbeat (-2) blinkingApp))
    by (vm_compute; intros [H|H]; discriminate H).
  assert (Hlow : -6 ≤ heartbeat_ (set_heartbeat (-2) blinkingApp)
                      - Z.of_nat (length (replicate 4 quietEnv)))
    by (vm_compute; discriminate).
  split; [repeat split; (assumption || reflexivity) |].
  apply (negative_countdown_runs_down (replicate 4 quietEnv)
           (set_heartbeat (-2) blinkingApp)); (assumption || reflexivity).
Defined.

(** ** A send port of zero *)

(** X18.  [tryToConnectOsc] takes a port for bound when it is positive,
    the tick when it is not negative.  With a configured send port of 0
    the two never agree: [tryToConnectOsc] never reports success and
    never sends the identity probe, and it leaves the send port at 0 or
    -1. *)
Theorem send_port_zero_never_connects (e : Env) (s : App) :
  oscSendPort_ s = 0 → currentSendPort_ s ≤ 0 →
  let ok := (tryToConnectOsc e s).1 in
  let s' := (tryToConnectOsc e s).2 in
  ok = false ∧ oscSent s' = oscSent s
  ∧ oscSendPort_ s' = 0 ∧ currentSendPort_ s' ≤ 0.
Proof.
  intros Hcfg Hcur.
  pose proof (tryToConnectOsc_binds_unbound_ports_only e s) as (Hs & _ & Hok & Hsent).
  pose proof (tryToConnectOsc_frame e s) as (_ & _ & _ & Hcfg' & _).
  cbv zeta in *.
  assert (Hle : currentSendPort_ (tryToConnectOsc e s).2 ≤ 0).
  { rewrite Hs. destruct (decide _); [destruct (senderConnects e)|]; lia. }
  assert (Hfalse : (tryToConnectOsc e s).1 = false).
  { destruct (tryToConnectOsc e s).1; [|done].
    destruct Hok as [Hok _]. specialize (Hok eq_refl). lia. }
  rewrite Hfalse in Hsent. cbn in Hsent. rewrite app_nil_r in Hsent.
  repeat split; try done. congruence.
Qed.

Lemma send_port_zero_never_connects_unbound :
  let s := mkApp (-1) (-1) 0 9001 7 (leds_ (constructed 7 10 0 false))
             "" false 10 false "" "" 0 false [] [] in
  let e := mkEnv false true true in
  (oscSendPort_ s = 0 ∧ currentSendPort_ s ≤ 0)
  ∧ let ok := (tryToConnectOsc e s).1 in
    let s' := (tryToConnectOsc e s).2 in
    ok = false ∧ oscSent s' = oscSent s
    ∧ oscSendPort_ s' = 0 ∧ currentSendPort_ s' ≤ 0.
Proof.
  split; [split; [reflexivity | vm_compute; discriminate] |].
  apply (send_port_zero_never_connects (mkEnv false true true));
    [reflexivity | vm_compute; discriminate].
Defined.

(** ** Hardware writes of a rebuild *)

Lemma rebuildLoop_midiWritten (n : nat) : ∀ (i : Z) (s : App),
  midiWritten (rebuildLoop n i s)
  = midiWritten s
    ++ mjoin ((λ k, ledFrame <$> (leds_ s ++ (freshLed <$> seqZ i (Z.of_nat (S k)))))
                <$> seq 0 n).
Proof.
  induction n as [|n IH]; intros i s.
  - cbn. by rewrite app_nil_r.
  - cbn [rebuildLoop]. rewrite IH.
    cbn [leds_ midiWritten updateLeds getCurrentState registerAutoUpdates
         oscSend midiWrite set_leds].
    rewrite <- app_assoc. f_equal.
    cbn [seq fmap list_fmap mjoin list_join]. f_equal.
    rewrite <- fmap_S_seq, <- list_fmap_compose. f_equal.
    apply list_fmap_ext. intros _ k _. cbn [compose].
    rewrite (Nat2Z.inj_succ (S k)), (seqZ_cons i) by lia.
    rewrite fmap_cons, <- app_assoc. cbn [app].
    replace (Z.succ i) with (i + 1) by lia.
    by replace (Z.pred (Z.succ (Z.of_nat (S k)))) with (Z.of_nat (S k)) by lia.
Qed.

Lemma rebuildFrames_succ (K : nat) :
  rebuildFrames (S K)
  = rebuildFrames K ++ ((λ i, ccFrame 107 (ledNumber i)) <$> seqZ 0 (Z.of_nat (S K))).
Proof.
  unfold rebuildFrames. rewrite seq_S, fmap_app, join_app. cbn.
  by rewrite app_nil_r.
Qed.

Lemma rebuildFrames_length (K : nat) :
  (2 * length (rebuildFrames K) = K * (K + 1))%nat.
Proof.
  induction K as [|K IH]; [done|].
  rewrite rebuildFrames_succ, length_app, length_fmap, length_seqZ. lia.
Qed.

Lemma rebuildFrames_off (K : nat) :
  Forall (λ f : Frame, f.1.2 = 107) (rebuildFrames K).
Proof.
  induction K as [|K IH]; [constructor|].
  rewrite rebuildFrames_succ. apply Forall_app. split; [done|].
  apply Forall_fmap, Forall_true. done.
Qed.

(** X19.  The rebuild of a registry of [K] LEDs by an identity-probe
    response writes, after each added LED, one frame per LED present so
    far: [K * (K + 1) / 2] frames in all, every one an LED-off frame
    (CC 107), none an LED-on frame. *)
Theorem pingAck_rebuild_writes_triangular_off_frames (m : OSCMessage) (s : App) :
  arguments m ≠ [] → (length (arguments m) ≤ 4)%nat →
  0 < int32At (arguments m) 2 (ledCount_ s) →
  let K := Z.to_nat (int32At (arguments m) 2 (ledCount_ s)) in
  let s' := handlePingAckMessage m s in
  midiWritten s' = midiWritten s ++ rebuildFrames K
  ∧ (2 * length (rebuildFrames K) = K * (K + 1))%nat
  ∧ Forall (λ f : Frame, f.1.2 = 107) (rebuildFrames K).
Proof.
  intros Hne Hlen HK K s'. subst s'.
  split; [|split; [apply rebuildFrames_length | apply rebuildFrames_off]].
  rewrite (pingAck_reads_fields_by_position m s Hne). cbv zeta.
  rewrite bool_decide_true by done.
  set (s1 := recordSession (arguments m) s).
  assert (Hc1 : ledCount_ s1 = int32At (arguments m) 2 (ledCount_ s)) by done.
  destruct (decide (0 < ledCount_ s1)) as [_|]; [|lia].
  cbn [midiWritten set_heartbeat]. unfold rebuildLeds.
  rewrite rebuildLoop_midiWritten, Hc1. fold K. cbn [leds_ midiWritten set_leds].
  f_equal. unfold rebuildFrames. f_equal.
  apply list_fmap_ext. intros _ k _. cbn [app].
  by rewrite <- list_fmap_compose.
Qed.

Lemma pingAck_rebuild_writes_triangular_off_frames_3_leds :
  let m := mkMsg "/pingack" (sessionArgs "host" "1.0" 3 8) in
  let s := blinkingApp in
  (arguments m ≠ [] ∧ (length (arguments m) ≤ 4)%nat
   ∧ 0 < int32At (arguments m) 2 (ledCount_ s))
  ∧ let K := Z.to_nat (int32At (arguments m) 2 (ledCount_ s)) in
    let s' := handlePingAckMessage m s in
    midiWritten s' = midiWritten s ++ rebuildFrames K
    ∧ (2 * length (rebuildFrames K) = K * (K + 1))%nat
    ∧ Forall (λ f : Frame, f.1.2 = 107) (rebuildFrames K).
Proof.
  split; [split; [discriminate | split; [cbn; lia | reflexivity]] |].
  apply (pingAck_rebuild_writes_triangular_off_frames
           (mkMsg "/pingack" (sessionArgs "host" "1.0" 3 8)) blinkingApp);
    [discriminate | cbn; lia | reflexivity].
Defined.

(** ** Dispatch by address prefix *)

Lemma prefixes_exclusive (a : string) :
  (startsWith a "/pingack" = true →
     startsWith a "/led" = false ∧ startsWith a "/display" = false
     ∧ startsWith a "/heartbeat" = false)
  ∧ (startsWith a "/led" = true →
       startsWith a "/pingack" = false ∧ startsWith a "/display" = false
       ∧ startsWith a "/heartbeat" = false)
  ∧ (startsWith a "/display" = true →
       startsWith a "/pingack" = false ∧ startsWith a "/led" = false
       ∧ startsWith a "/heartbeat" = false)
  ∧ (startsWith a "/heartbeat" = true →
       startsWith a "/pingack" = false ∧ startsWith a "/led" = false
       ∧ startsWith a "/display" = false).
Proof.
  unfold startsWith.
  destruct a as [|c0 [|c1 a]]; cbn -[Ascii.ascii_dec];
    repeat match goal with
           | |- context [Ascii.ascii_dec ?x ?y] =>
               destruct (Ascii.ascii_dec x y); try discriminate; subst;
               cbn -[Ascii.ascii_dec]
           end;
    repeat split; done.
Qed.

(** X20.  The four address prefixes exclude one another, so the order of
    the tests in [oscMessageReceived] never decides: a message goes to
    the handler of the one prefix its address starts with, and a message
    whose address starts with none of them leaves the state unchanged. *)
Theorem dispatch_is_unambiguous (m : OSCMessage) (s : App) :
  (startsWith (addressPattern m) "/pingack" = true →
     oscMessageReceived m s = Some (handlePingAckMessage m s))
  ∧ (startsWith (addressPattern m) "/led" = true →
       oscMessageReceived m s = handleLedMessage m s)
  ∧ (startsWith (addressPattern m) "/display" = true →
       oscMessageReceived m s = handleDisplayMessage m s)
  ∧ (startsWith (addressPattern m) "/heartbeat" = true →
       oscMessageReceived m s = Some (handleHeartbeatMessage m s))
  ∧ (recognized m = false → oscMessageReceived m s = Some s).
Proof.
  destruct (prefixes_exclusive (addressPattern m)) as (Hp & Hl & Hd & Hh).
  unfold oscMessageReceived, recognized. cbv zeta.
  repeat split.
  - by intros ->.
  - intros H. destruct (Hl H) as (-> & _). by rewrite H.
  - intros H. destruct (Hd H) as (-> & -> & _). by rewrite H.
  - intros H. destruct (Hh H) as (-> & -> & ->). by rewrite H.
  - intros H. repeat (apply orb_false_elim in H as [H ?]).
    by repeat match goal with Hx : _ = false |- _ => rewrite Hx; clear Hx end.
Qed.

Lemma dispatch_is_unambiguous_heartbeat :
  let m := mkMsg "/heartbeat" (sessionArgs "host" "1.0" 10 7) in
  let s := blinkingApp in
  startsWith (addressPattern m) "/heartbeat" = true
  ∧ oscMessageReceived m s = Some (handleHeartbeatMessage m s).
Proof.
  split; [reflexivity |].
  apply (dispatch_is_unambiguous
           (mkMsg "/heartbeat" (sessionArgs "host" "1.0" 10 7)) blinkingApp).
  reflexivity.
Defined.

(** ** Commands of the shell *)

Lemma limit16Bit_clamp (v : Z) :
  limit16Bit v = Z.max 0 (Z.min v 65535) ∧ uint16 (limit16Bit v) = limit16Bit v.
Proof.
  assert (Hc : jlimit 0 65535 v = Z.max 0 (Z.min v 65535))
    by (unfold jlimit; repeat destruct (decide _); lia).
  unfold limit16Bit, uint16. rewrite Hc.
  rewrite !(Z.mod_small (Z.max 0 (Z.min v 65535)) 65536) by lia. done.
Qed.

Lemma limit7Bit_clamp (v : Z) :
  limit7Bit v = Z.max 0 (Z.min v 127) ∧ uint8 (limit7Bit v) = limit7Bit v.
Proof.
  assert (Hc : jlimit 0 127 v = Z.max 0 (Z.min v 127))
    by (unfold jlimit; repeat destruct (decide _); lia).
  unfold limit7Bit, uint8. rewrite Hc.
  rewrite !(Z.mod_small (Z.max 0 (Z.min v 127)) 256) by lia. done.
Qed.

Lemma isValidOscPort_clamp (v : Z) :
  isValidOscPort (Z.max 0 (Z.min v 65535)) = bool_decide (1 ≤ v).
Proof.
  unfold isValidOscPort.
  destruct (decide (1 ≤ v)).
  - rewrite !bool_decide_true by lia. done.
  - rewrite (bool_decide_false (0 < _)) by lia.
    by rewrite (bool_decide_false (1 ≤ v)) by lia.
Qed.

(** X21.  The command [oin] stores the given number clamped to 0..65535
    as the configured receive port and calls [tryToConnectOsc]: a
    receive port that is already bound is kept, whatever the new number
    is; an unbound one is bound to the clamped number only if the number
    is at least 1 and [oscReceiver.connect] succeeds.  The command never
    sets the countdown and leaves the registry alone. *)
Theorem osc_in_command_binds_unbound_port_only (j : StringOps) (e : Env)
    (cmd : ApplicationCommand) (sh : Shell) :
  command_ cmd = OSC_IN →
  let v := asDecOrHexIntValue j sh (opt0 cmd) in
  let p := Z.max 0 (Z.min v 65535) in
  ∃ sh', executeCommand j e cmd sh = Some sh'
    ∧ oscReceivePort_ (core sh') = p
    ∧ currentReceivePort_ (core sh')
      = (if decide (currentReceivePort_ (core sh) < 0)
         then if bool_decide (1 ≤ v) && receiverConnects e
              then p else currentReceivePort_ (core sh)
         else currentReceivePort_ (core sh))
    ∧ heartbeat_ (core sh') = heartbeat_ (core sh)
    ∧ leds_ (core sh') = leds_ (core sh)
    ∧ channel_ sh' = channel_ sh ∧ quitRequested sh' = quitRequested sh.
Proof.
  intros Hcmd v p. unfold executeCommand. rewrite Hcmd. cbv zeta.
  eexists. split; [done|]. cbn [core set_core channel_ quitRequested].
  unfold asPortNumber. fold v.
  destruct (limit16Bit_clamp v) as (Hclamp & Hcast). rewrite Hcast, Hclamp. fold p.
  set (s1 := set_oscReceivePort p (core sh)).
  pose proof (tryToConnectOsc_binds_unbound_ports_only e s1) as (_ & Hr & _).
  pose proof (tryToConnectOsc_fields e s1) as (Hl & _ & Hh & _).
  pose proof (tryToConnectOsc_frame e s1) as (_ & _ & _ & _ & Hcfg & _).
  cbv zeta in Hr, Hl, Hh, Hcfg.
  rewrite Hr, Hl, Hh, Hcfg. cbn [s1 oscReceivePort_ currentReceivePort_ heartbeat_
    leds_ set_oscReceivePort].
  replace (isValidOscPort p) with (bool_decide (1 ≤ v))
    by (symmetry; apply isValidOscPort_clamp).
  done.
Qed.

Lemma osc_in_command_binds_unbound_port_only_9001 :
  let j := constantOps 9001 in
  let e := mkEnv false true true in
  let cmd := mkCommand "oin" "osc in" OSC_IN 0 "number" "OSC receive port" ["9001"] in
  let sh := constructedShell 7 10 0 false in
  command_ cmd = OSC_IN
  ∧ let v := asDecOrHexIntValue j sh (opt0 cmd) in
    let p := Z.max 0 (Z.min v 65535) in
    ∃ sh', executeCommand j e cmd sh = Some sh'
      ∧ oscReceivePort_ (core sh') = p
      ∧ currentReceivePort_ (core sh')
        = (if decide (currentReceivePort_ (core sh) < 0)
           then if bool_decide (1 ≤ v) && receiverConnects e
                then p else currentReceivePort_ (core sh)
           else currentReceivePort_ (core sh))
      ∧ heartbeat_ (core sh') = heartbeat_ (core sh)
      ∧ leds_ (core sh') = leds_ (core sh)
      ∧ channel_ sh' = channel_ sh ∧ quitRequested sh' = quitRequested sh.
Proof.
  split; [reflexivity |].
  apply (osc_in_command_binds_unbound_port_only (constantOps 9001)
           (mkEnv false true true)
           (mkCommand "oin" "osc in" OSC_IN 0 "number" "OSC receive port" ["9001"])
           (constructedShell 7 10 0 false)).
  reflexivity.
Defined.

(** X22.  The command [oout] stores the given number clamped to 0..65535
    as the configured send port and, when [oscSender.connect] succeeds,
    makes it the bound send port, also over a port that was bound before
    and also when it is 0; when the connect fails the bound port is kept.
    Nothing is sent, and receive port, countdown and registry are left
    alone. *)
Theorem osc_out_command_rebinds_send_port (j : StringOps) (e : Env)
    (cmd : ApplicationCommand) (sh : Shell) :
  command_ cmd = OSC_OUT →
  let p := Z.max 0 (Z.min (asDecOrHexIntValue j sh (opt0 cmd)) 65535) in
  ∃ sh', executeCommand j e cmd sh = Some sh'
    ∧ oscSendPort_ (core sh') = p
    ∧ currentSendPort_ (core sh')
      = (if senderConnects e then p else currentSendPort_ (core sh))
    ∧ currentReceivePort_ (core sh') = currentReceivePort_ (core sh)
    ∧ oscSent (core sh') = oscSent (core sh)
    ∧ heartbeat_ (core sh') = heartbeat_ (core sh)
    ∧ leds_ (core sh') = leds_ (core sh).
Proof.
  intros Hcmd p. unfold executeCommand. rewrite Hcmd. cbv zeta.
  unfold asPortNumber.
  destruct (limit16Bit_clamp (asDecOrHexIntValue j sh (opt0 cmd))) as (Hclamp & Hcast).
  rewrite Hcast, Hclamp. fold p.
  destruct (senderConnects e); cbn; eexists; (split; [done|]); done.
Qed.

Lemma osc_out_command_rebinds_send_port_negative :
  let j := constantOps (-5) in
  let e := mkEnv false true true in
  let cmd := mkCommand "oout" "osc out" OSC_OUT 0 "number" "OSC send port" ["-5"] in
  let sh := mkShell blinkingApp 1 false false in
  command_ cmd = OSC_OUT
  ∧ let p := Z.max 0 (Z.min (asDecOrHexIntValue j sh (opt0 cmd)) 65535) in
    ∃ sh', executeCommand j e cmd sh = Some sh'
      ∧ oscSendPort_ (core sh') = p
      ∧ currentSendPort_ (core sh')
        = (if senderConnects e then p else currentSendPort_ (core sh))
      ∧ currentReceivePort_ (core sh') = currentReceivePort_ (core sh)
      ∧ oscSent (core sh') = oscSent (core sh)
      ∧ heartbeat_ (core sh') = heartbeat_ (core sh)
      ∧ leds_ (core sh') = leds_ (core sh).
Proof.
  split; [reflexivity |].
  apply (osc_out_command_rebinds_send_port (constantOps (-5))
           (mkEnv false true true)
           (mkCommand "oout" "osc out" OSC_OUT 0 "number" "OSC send port" ["-5"])
           (mkShell blinkingApp 1 false false)).
  reflexivity.
Defined.

(** X23.  The command [dout] first forgets the MIDI handle and stores the
    given name.  If [snd_rawmidi_open] fails, the handle stays null, also
    when a device was open before, and the registry is untouched; if it
    succeeds (the registry then needs its ten pedal LEDs) the handle is
    open and the LEDs at positions 0..9 are switched off with one
    LED-off frame each.  Timers, states, countdown and ports are not
    changed. *)
Theorem device_out_command_reopens (j : StringOps) (e : Env)
    (cmd : ApplicationCommand) (sh : Shell) :
  command_ cmd = DEVICE_OUT →
  (midiOpens e = true → (10 ≤ length (leds_ (core sh)))%nat) →
  ∃ sh', executeCommand j e cmd sh = Some sh'
    ∧ midiOutName_ (core sh') = opt0 cmd
    ∧ midiOut_ (core sh') = midiOpens e
    ∧ leds_ (core sh')
      = (if midiOpens e then pedalsDark 0 10 (leds_ (core sh)) else leds_ (core sh))
    ∧ midiWritten (core sh')
      = midiWritten (core sh) ++ (if midiOpens e then pedalsDarkFrames 0 10 else [])
    ∧ heartbeat_ (core sh') = heartbeat_ (core sh)
    ∧ currentReceivePort_ (core sh') = currentReceivePort_ (core sh)
    ∧ currentSendPort_ (core sh') = currentSendPort_ (core sh).
Proof.
  intros Hcmd Hlen. unfold executeCommand. rewrite Hcmd. cbv zeta.
  destruct (midiOpens e).
  - change (Z.to_nat NUM_LED_PEDALS) with 10%nat.
    change 0 with (Z.of_nat 0) at 1.
    rewrite pedalsOff_spec by (cbn; by apply Hlen).
    cbn [mbind option_bind]. eexists. split; [done|]. done.
  - eexists. split; [done|]. cbn. by rewrite app_nil_r.
Qed.

Lemma device_out_command_reopens_at_start :
  let j := constantOps 0 in
  let e := mkEnv true false false in
  let cmd := mkCommand "dout" "device out" DEVICE_OUT 0 "name"
               "Set the name of the MIDI output port" ["FCB1010"] in
  let sh := constructedShell 7 10 0 false in
  (command_ cmd = DEVICE_OUT
   ∧ (midiOpens e = true → (10 ≤ length (leds_ (core sh)))%nat))
  ∧ ∃ sh', executeCommand j e cmd sh = Some sh'
      ∧ midiOutName_ (core sh') = opt0 cmd
      ∧ midiOut_ (core sh') = midiOpens e
      ∧ leds_ (core sh')
        = (if midiOpens e then pedalsDark 0 10 (leds_ (core sh)) else leds_ (core sh))
      ∧ midiWritten (core sh')
        = midiWritten (core sh) ++ (if midiOpens e then pedalsDarkFrames 0 10 else [])
      ∧ heartbeat_ (core sh') = heartbeat_ (core sh)
      ∧ currentReceivePort_ (core sh') = currentReceivePort_ (core sh)
      ∧ currentSendPort_ (core sh') = currentSendPort_ (core sh).
Proof.
  assert (Hlen : midiOpens (mkEnv true false false) = true
                 → (10 ≤ length (leds_ (core (constructedShell 7 10 0 false))))%nat)
    by (intros _; vm_compute; lia).
  split; [split; [reflexivity | exact Hlen] |].
  apply (device_out_command_reopens (constantOps 0) (mkEnv true false false)
           (mkCommand "dout" "device out" DEVICE_OUT 0 "name"
              "Set the name of the MIDI output port" ["FCB1010"])
           (constructedShell 7 10 0 false)); [reflexivity | exact Hlen].
Defined.

(** X24.  The command [ch] stores the given number clamped to 0..127 as
    the channel, not to the 0..16 of its help text, and changes nothing
    else. *)
Theorem channel_command_clamps_to_seven_bits (j : StringOps) (e : Env)
    (cmd : ApplicationCommand) (sh : Shell) :
  command_ cmd = CHANNEL →
  ∃ sh', executeCommand j e cmd sh = Some sh'
    ∧ channel_ sh' = Z.max 0 (Z.min (asDecOrHexIntValue j sh (opt0 cmd)) 127)
    ∧ core sh' = core sh
    ∧ useHexadecimalsByDefault_ sh' = useHexadecimalsByDefault_ sh
    ∧ quitRequested sh' = quitRequested sh.
Proof.
  intros Hcmd. unfold executeCommand. rewrite Hcmd.
  eexists. split; [done|]. cbn. unfold asDecOrHex7BitValue.
  destruct (limit7Bit_clamp (asDecOrHexIntValue j sh (opt0 cmd))) as (Hclamp & Hcast).
  by rewrite Hcast, Hclamp.
Qed.

Lemma channel_command_clamps_to_seven_bits_99 :
  let j := constantOps 99 in
  let e := quietEnv in
  let cmd := mkCommand "ch" "channel" CHANNEL 0 "number"
               "Set MIDI channel for the commands (0-16), defaults to 0" ["99"] in
  let sh := constructedShell 7 10 0 false in
  command_ cmd = CHANNEL
  ∧ ∃ sh', executeCommand j e cmd sh = Some sh'
      ∧ channel_ sh' = Z.max 0 (Z.min (asDecOrHexIntValue j sh (opt0 cmd)) 127)
      ∧ core sh' = core sh
      ∧ useHexadecimalsByDefault_ sh' = useHexadecimalsByDefault_ sh
      ∧ quitRequested sh' = quitRequested sh.
Proof.
  split; [reflexivity |].
  apply (channel_command_clamps_to_seven_bits (constantOps 99) quietEnv
           (mkCommand "ch" "channel" CHANNEL 0 "number"
              "Set MIDI channel for the commands (0-16), defaults to 0" ["99"])
           (constructedShell 7 10 0 false)).
  reflexivity.
Defined.

(** ** Registries that are not indexed by position *)

(** X25.  A heartbeat of the tracked engine (with at least one argument)
    that reports more LEDs than are tracked numbers the appended LEDs
    from the tracked count on, whatever the size of the registry is.  Unless the tracked count is
    that size, the first appended LED does not carry its own position, so
    the registry is not indexed by position any more (this happens after
    a drop of the reported count followed by a rise). *)
Theorem heartbeat_growth_numbers_from_tracked_count (m : OSCMessage) (s : App) :
  arguments m ≠ [] →
  int32At (arguments m) 3 (engineId_ s) = engineId_ s →
  ledCount_ s < int32At (arguments m) 2 0 →
  let N := int32At (arguments m) 2 0 in
  let s' := handleHeartbeatMessage m s in
  leds_ s' = leds_ s ++ (freshLed <$> seqZ (ledCount_ s) (N - ledCount_ s))
  ∧ ledCount_ s' = N
  ∧ leds_ s' !! length (leds_ s) = Some (freshLed (ledCount_ s))
  ∧ (ledCount_ s ≠ Z.of_nat (length (leds_ s)) → ¬ indexed (leds_ s')).
Proof.
  intros Hne Hid Hlt N s'.
  subst s'. rewrite (heartbeat_form m s Hne). cbv zeta. fold N.
  destruct (decide (_ ≠ engineId_ s)); [done|].
  destruct (decide (ledCount_ s ≠ N)); [|lia].
  assert (Hleds : leds_ (set_ledCount N
                    (appendLoop (Z.to_nat (N - ledCount_ s)) (ledCount_ s)
                       (recordHost (arguments m) s)))
                  = leds_ s ++ (freshLed <$> seqZ (ledCount_ s) (N - ledCount_ s))).
  { cbn. rewrite appendLoop_leds, Z2Nat.id by lia. done. }
  cbn [leds_ ledCount_ set_heartbeat set_heartbeatOn midiWrite] in *.
  rewrite Hleds.
  assert (Hfirst : (leds_ s ++ (freshLed <$> seqZ (ledCount_ s) (N - ledCount_ s)))
                   !! length (leds_ s) = Some (freshLed (ledCount_ s))).
  { rewrite lookup_app_r by lia. rewrite Nat.sub_diag, (seqZ_cons (ledCount_ s)) by lia.
    done. }
  repeat split; try done.
  intros Hsize Hix. apply (indexed_lookup _ _ _ Hix) in Hfirst. cbn in Hfirst. done.
Qed.

Lemma heartbeat_growth_numbers_from_tracked_count_after_drop :
  let drop := mkMsg "/heartbeat" (sessionArgs "host" "1.0" 4 7) in
  let m := mkMsg "/heartbeat" (sessionArgs "host" "1.0" 6 7) in
  let s := handleHeartbeatMessage drop blinkingApp in
  (arguments m ≠ [] ∧ int32At (arguments m) 3 (engineId_ s) = engineId_ s
   ∧ ledCount_ s < int32At (arguments m) 2 0)
  ∧ let N := int32At (arguments m) 2 0 in
    let s' := handleHeartbeatMessage m s in
    leds_ s' = leds_ s ++ (freshLed <$> seqZ (ledCount_ s) (N - ledCount_ s))
    ∧ ledCount_ s' = N
    ∧ leds_ s' !! length (leds_ s) = Some (freshLed (ledCount_ s))
    ∧ (ledCount_ s ≠ Z.of_nat (length (leds_ s)) → ¬ indexed (leds_ s')).
Proof.
  split; [split; [discriminate | split; reflexivity] |].
  apply (heartbeat_growth_numbers_from_tracked_count
           (mkMsg "/heartbeat" (sessionArgs "host" "1.0" 6 7))
           (handleHeartbeatMessage (mkMsg "/heartbeat" (sessionArgs "host" "1.0" 4 7))
              blinkingApp)); [discriminate | reflexivity | reflexivity].
Defined.

(** X26.  The blink loop reads [on_] and [timer_] of the LED at the
    current position but switches the LED addressed by that LED's
    [index_].  For a blinking LED that is due at position [p] and
    carries the index [q]: if [q] is inside the registry, the LED at
    position [q] receives the flipped flag and the hardware number of
    [q], and only the timer of the LED at [p] is reloaded, so for
    [q ≠ p] the LED at [p] keeps its flag; if [q] is outside the
    registry the access is outside the array and the behaviour is
    undefined. *)
Theorem blink_switches_led_named_by_index (s : App) (p : nat) (q : Z) (led : LED) :
  leds_ s !! p = Some led →
  isBlinking (state_ led) = true → timer_ led ≤ 0 → index_ led = q →
  (0 ≤ q < Z.of_nat (length (leds_ s)) →
     ∃ s', blinkLed p s = Some s'
       ∧ leds_ s' = alter (withTimer (blinkReload (state_ led))) p
                      (alter (withOn (negb (on_ led))) (Z.to_nat q) (leds_ s))
       ∧ midiWritten s'
         = midiWritten s ++ [ccFrame (if on_ led then 107 else 106) (ledNumber q)]
       ∧ (Z.to_nat q ≠ p →
            leds_ s' !! p = Some (withTimer (blinkReload (state_ led)) led)))
  ∧ (q < 0 ∨ Z.of_nat (length (leds_ s)) ≤ q → blinkLed p s = None).
Proof.
  intros Hp Hb Ht Hq. unfold blinkLed. rewrite Hp, Hb.
  destruct (decide (timer_ led ≤ 0)) as [_|]; [|done]. rewrite Hq.
  split.
  - intros Hin.
    destruct (lookup_lt_is_Some_2 (leds_ s) (Z.to_nat q) ltac:(lia)) as [ledq Hledq].
    unfold ledOff, ledOn, getReference.
    rewrite (bool_decide_true (0 ≤ q)) by lia. rewrite Hledq.
    destruct (on_ led); cbn; eexists; (split; [done|]); cbn;
      (split; [done|]); (split; [done|]); intros Hne;
      by rewrite list_lookup_alter_eq, list_lookup_alter_ne, Hp by done.
  - intros Hout. unfold ledOff, ledOn, getReference.
    destruct (decide (0 ≤ q)).
    + rewrite (bool_decide_true (0 ≤ q)) by done.
      rewrite (lookup_ge_None_2 (leds_ s) (Z.to_nat q)) by lia.
      by destruct (on_ led).
    + rewrite (bool_decide_false (0 ≤ q)) by done. by destruct (on_ led).
Qed.

Lemma blink_switches_led_named_by_index_alias :
  let s := set_leds [mkLED 0 true 0 Light; mkLED 0 false 0 Blink] blinkingApp in
  let led := mkLED 0 false 0 Blink in
  (leds_ s !! 1%nat = Some led ∧ isBlinking (state_ led) = true
   ∧ timer_ led ≤ 0 ∧ index_ led = 0)
  ∧ (0 ≤ 0 < Z.of_nat (length (leds_ s)) →
       ∃ s', blinkLed 1 s = Some s'
         ∧ leds_ s' = alter (withTimer (blinkReload (state_ led))) 1%nat
                        (alter (withOn (negb (on_ led))) (Z.to_nat 0) (leds_ s))
         ∧ midiWritten s'
           = midiWritten s ++ [ccFrame (if on_ led then 107 else 106) (ledNumber 0)]
         ∧ (Z.to_nat 0 ≠ 1%nat →
              leds_ s' !! 1%nat = Some (withTimer (blinkReload (state_ led)) led)))
    ∧ (0 < 0 ∨ Z.of_nat (length (leds_ s)) ≤ 0 → blinkLed 1 s = None).
Proof.
  split; [repeat split; (reflexivity || (vm_compute; discriminate)) |].
  apply (blink_switches_led_named_by_index
           (set_leds [mkLED 0 true 0 Light; mkLED 0 false 0 Blink] blinkingApp)
           1 0 (mkLED 0 false 0 Blink));
    (reflexivity || (vm_compute; discriminate)).
Defined.

Lemma blinkStep_waiting (led : LED) (n : nat) :
  isBlinking (state_ led) = true → Z.of_nat n ≤ timer_ led →
  Nat.iter n blinkStep led = withTimer (timer_ led - Z.of_nat n) led.
Proof.
  intros Hb. induction n as [|n IH]; intros Ht.
  - cbn [Nat.iter nat_rect]. change (Z.of_nat 0) with 0. rewrite Z.sub_0_r.
    by destruct led.
  - rewrite Nat.iter_succ, IH by lia. destruct led as [i o t st].
    cbn in Hb, Ht |- *. unfold blinkStep, withTimer. cbn. rewrite Hb.
    destruct (decide _) as [Hle|_]; [lia|]. f_equal. lia.
Qed.

(** X27.  The timer written by an LED update is a delay: while both
    ports are bound and the registry is indexed, a blinking LED whose
    timer is [t ≥ 0] keeps its flag during the first [t] ticks, its timer
    running down by one per tick, and is switched over for the first time
    by tick [t + 1], which reloads the timer. *)
Theorem blink_timer_delays_first_toggle (s : App) (es : list Env) (p : nat) (led : LED) :
  ¬ linkDown s → midiSettled s → 0 ≤ heartbeat_ s → indexed (leds_ s) →
  leds_ s !! p = Some led → isBlinking (state_ led) = true → 0 ≤ timer_ led →
  ∃ s' led', runTicks es s = Some s'
    ∧ leds_ s' !! p = Some led'
    ∧ (Z.of_nat (length es) ≤ timer_ led →
         led' = withTimer (timer_ led - Z.of_nat (length es)) led)
    ∧ (Z.of_nat (length es) = timer_ led + 1 →
         led' = mkLED (index_ led) (negb (on_ led)) (blinkReload (state_ led))
                  (state_ led)).
Proof.
  intros Hup Hmidi Hhb Hix Hp Hb Ht.
  destruct (runTicks_linked es s Hup Hmidi Hhb Hix) as (s' & Hrun & Hl & _).
  exists s', (Nat.iter (length es) blinkStep led).
  split; [done|]. split; [by rewrite Hl, list_lookup_fmap, Hp|]. split.
  - intros Hn. by apply blinkStep_waiting.
  - intros Hn. destruct (length es) as [|n]; [lia|].
    rewrite Nat.iter_succ, blinkStep_waiting by (done || lia).
    rewrite blinkStep_due.
    + destruct led; cbn. done.
    + by destruct led.
    + destruct led; cbn in *. lia.
Qed.

Lemma blink_timer_delays_first_toggle_seed_2 :
  let m := mkMsg "/led" [Int32 3; Int32 1; Int32 2; Int32 2] in
  let s := default freshlyConnected (handleLedMessage m freshlyConnected) in
  let es := replicate 3 quietEnv in
  let led := mkLED 3 true 2 Blink in
  (¬ linkDown s ∧ midiSettled s ∧ 0 ≤ heartbeat_ s ∧ indexed (leds_ s)
   ∧ leds_ s !! 3%nat = Some led ∧ isBlinking (state_ led) = true
   ∧ 0 ≤ timer_ led)
  ∧ ∃ s' led', runTicks es s = Some s'
      ∧ leds_ s' !! 3%nat = Some led'
      ∧ (Z.of_nat (length es) ≤ timer_ led →
           led' = withTimer (timer_ led - Z.of_nat (length es)) led)
      ∧ (Z.of_nat (length es) = timer_ led + 1 →
           led' = mkLED (index_ led) (negb (on_ led)) (blinkReload (state_ led))
                    (state_ led)).
Proof.
  assert (H : ¬ linkDown (default freshlyConnected
                 (handleLedMessage (mkMsg "/led" [Int32 3; Int32 1; Int32 2; Int32 2])
                    freshlyConnected))).
  { vm_compute. intros [Hc|Hc]; discriminate Hc. }
  split.
  - split; [exact H|]. repeat split; (reflexivity || (vm_compute; discriminate)).
  - apply (blink_timer_delays_first_toggle
             (default freshlyConnected
                (handleLedMessage (mkMsg "/led" [Int32 3; Int32 1; Int32 2; Int32 2])
                   freshlyConnected))
             (replicate 3 quietEnv) 3 (mkLED 3 true 2 Blink));
      (exact H || reflexivity || (vm_compute; discriminate)).
Defined.
